(** * TechSync backend: the real-time connection and signaling subsystem

    A shallow embedding of [backend/utils/socketHandler.js]: the connection
    registry ([UserConnectionManager]), the authentication middleware, the
    chat relays ([send_message], [send_friend_message]), the typing
    indicators, the video-offer router and the disconnect handler.

    Conventions.
    - A JavaScript [Map] whose iteration order is never observed is a
      [gmap]; a JavaScript [Set] and the live-socket table, which the code
      walks with [forEach], are insertion-ordered lists.
    - Identifiers (user, socket, room and project ids) are strings; a
      missing payload field is [None]; the empty string is falsy.
    - [Date.now()] is an explicit argument [now : Z] (milliseconds).
    - The Supabase client is an explicit [store] of tables.  A handler that
      awaits the store is run against one snapshot of it: the interleaving
      of other connections' handlers during an [await] is not modelled.
    - What a handler sends is returned as a list of [emission]s, oldest
      first. *)

From stdpp Require Import gmap strings list.

Local Open Scope string_scope.
Local Open Scope list_scope.
Local Open Scope nat_scope.

(** ** JavaScript values *)

(** Truthiness of a string: only the empty string is falsy. *)
Definition truthy (s : string) : bool :=
  match s with
  | EmptyString => false
  | String _ _ => true
  end.

(** Truthiness of an optional field: [undefined] is falsy. *)
Definition truthy_opt (o : option string) : bool :=
  match o with
  | Some s => truthy s
  | None => false
  end.

(** [a || b] on two optional strings. *)
Definition js_or (a b : option string) : option string :=
  if truthy_opt a then a else b.

(** [s.startsWith(p)]. *)
Definition startsWith (p s : string) : bool := String.prefix p s.

(** [s.replace(p, '')] for a string pattern [p]: the first occurrence of
    [p] is removed. *)
Fixpoint replace_first (p s : string) : string :=
  if String.prefix p s then String.substring (String.length p) (String.length s - String.length p) s
  else match s with
       | EmptyString => EmptyString
       | String c s' => String c (replace_first p s')
       end.

(** A JavaScript [Set] of strings, in insertion order. *)
Module JsSet.

Abbreviation t := (list string).

Definition empty : t := [].

Definition has (x : string) (s : t) : bool := bool_decide (x ∈ s).

Definition add (x : string) (s : t) : t :=
  if has x s then s else s ++ [x].

Definition delete (x : string) (s : t) : t :=
  filter (λ y, y ≠ x) s.

Definition size (s : t) : nat := List.length s.

End JsSet.

(** ** The connection registry *)

Record UserConnectionManager := {
  userSockets : gmap string JsSet.t;   (* userId -> Set of socketIds *)
  socketUsers : gmap string string;    (* socketId -> userId *)
  socketRooms : gmap string JsSet.t    (* socketId -> Set of rooms *)
}.

Definition newManager : UserConnectionManager :=
  {| userSockets := ∅; socketUsers := ∅; socketRooms := ∅ |}.

Definition addConnection (userId socketId : string) (m : UserConnectionManager)
  : UserConnectionManager :=
  let us :=
    match userSockets m !! userId with
    | Some _ => userSockets m
    | None => <[userId := JsSet.empty]> (userSockets m)
    end in
  {| userSockets := alter (JsSet.add socketId) userId us;
     socketUsers := <[socketId := userId]> (socketUsers m);
     socketRooms := <[socketId := JsSet.empty]> (socketRooms m) |}.

Definition addRoom (socketId room : string) (m : UserConnectionManager)
  : UserConnectionManager :=
  let sr :=
    match socketRooms m !! socketId with
    | Some _ => socketRooms m
    | None => <[socketId := JsSet.empty]> (socketRooms m)
    end in
  {| userSockets := userSockets m;
     socketUsers := socketUsers m;
     socketRooms := alter (JsSet.add room) socketId sr |}.

Definition removeConnection (socketId : string) (m : UserConnectionManager)
  : UserConnectionManager :=
  let us :=
    match socketUsers m !! socketId with
    | Some userId =>
        if truthy userId then
          match userSockets m !! userId with
          | Some set =>
              let set' := JsSet.delete socketId set in
              if Nat.eqb (JsSet.size set') 0
              then delete userId (userSockets m)
              else <[userId := set']> (userSockets m)
          | None => userSockets m
          end
        else userSockets m
    | None => userSockets m
    end in
  {| userSockets := us;
     socketUsers := delete socketId (socketUsers m);
     socketRooms := delete socketId (socketRooms m) |}.

Definition getRooms (socketId : string) (m : UserConnectionManager) : JsSet.t :=
  default JsSet.empty (socketRooms m !! socketId).

Definition getUserSocketCount (userId : string) (m : UserConnectionManager) : nat :=
  match userSockets m !! userId with
  | Some set => JsSet.size set
  | None => 0
  end.

(** The sockets the registry holds for a user. *)
Definition sockets_of (u : string) (m : UserConnectionManager) : JsSet.t :=
  default JsSet.empty (userSockets m !! u).

(** Every per-user socket set is duplicate-free, as a JavaScript [Set] is. *)
Definition manager_wf (m : UserConnectionManager) : Prop :=
  ∀ u set, userSockets m !! u = Some set → NoDup set.

(** ** The external store *)

Record profile := {
  user_id : string;
  username : string;
  full_name : string;
  avatar_url : string
}.

Record chat_room := {
  room_id : string;
  room_project_id : string;
  room_name : string
}.

Record project_member := {
  pm_id : string;
  pm_project_id : string;
  pm_user_id : string
}.

Record friendship := {
  fr_id : string;
  requester_id : string;
  addressee_id : string;
  fr_status : string
}.

(** A UTF-16 code unit and a message body as a sequence of them. *)
Definition code_unit := N.
Definition text := list code_unit.

Record chat_message := {
  cm_id : nat;
  cm_room_id : string;
  cm_user_id : string;
  cm_message_type : string;
  cm_content : text;
  cm_reply_to_message_id : option nat
}.

Record friend_message := {
  fm_id : nat;
  fm_sender_id : string;
  fm_recipient_id : string;
  fm_content : text
}.

(** [healthy = false] stands for a store whose round-trips fail: every
    query then answers with an error. *)
Record store := {
  users : list profile;
  chat_rooms : list chat_room;
  project_members : list project_member;
  user_friendships : list friendship;
  chat_messages : list chat_message;
  friend_messages : list friend_message;
  healthy : bool
}.

(** The [{ data, error }] answer of a query. *)
Inductive answer (A : Type) :=
  | Data (a : A)
  | Error.
Arguments Data {A} a.
Arguments Error {A}.

(** [.single()]: the selected rows must be exactly one. *)
Definition single {A} (db : store) (rows : list A) : answer A :=
  if healthy db then
    match rows with
    | [r] => Data r
    | _ => Error
    end
  else Error.

(** ** Emissions *)

Inductive target :=
  | ToSender                              (* socket.emit *)
  | ToRoomExceptSender (room : string)    (* socket.to(room).emit *)
  | ToRoom (room : string)                (* io.to(room).emit *)
  | ToSocket (socketId : string)          (* clientSocket.emit *)
  | ToEveryone.                           (* io.emit *)

(** A chat message as relayed: the stored row and the replied-to row when
    it was found.  The joined sender profile is left out. *)
Record processed_message := {
  pm_message : chat_message;
  pm_reply_to : option chat_message
}.

Inductive payload :=
  | PError (message : string)
  | PFriendMessage (senderId : string) (message : friend_message)
  | PFriendMessageSent (message : friend_message)
  | PNewMessage (message : processed_message) (roomId projectId : string)
  | PMessageSent (message : processed_message) (roomId : string)
  | PRoomsJoined (projectId : string) (rooms : list (string * string))
  | PUserTyping (userId uname roomId projectId : string)
  | PUserStoppedTyping (userId roomId projectId : string)
  | PUserOffline (userId projectId : string)
  | PVideoParticipantLeft (userId roomId : string)
  | PVideoOffer (userId uname avatarUrl offer roomId : string).

Record emission := Emit {
  em_target : target;
  em_event : string;
  em_payload : payload
}.

#[global] Instance target_eq_dec : EqDecision target.
Proof. solve_decision. Defined.

(** The emissions of [out] that carry event [ev]. *)
Definition events_named (ev : string) (out : list emission) : list emission :=
  filter (λ e, em_event e = ev) out.

(** ** The authentication middleware *)

(** What [jwt.verify] makes of the presented token. *)
Inductive credential :=
  | NoToken                                        (* absent or empty *)
  | Forged                                         (* jwt.verify throws *)
  | Signed (id : option string) (userId : option string).

Record cached_user := {
  cu_profile : profile;
  cachedAt : Z
}.

Definition USER_CACHE_TTL : Z := 5 * 60 * 1000.
Definition MAX_CONNECTIONS_PER_USER : nat := 10.

Record socket := {
  sock_id : string;
  sock_userId : string;
  sock_user : profile;
  sock_rooms : JsSet.t        (* socket.rooms, kept by the transport *)
}.

(** Process-wide state. *)
Record server := {
  connectionManager : UserConnectionManager;
  activeConnections : gmap string Z;
  userCache : gmap string cached_user;
  sockets : list socket        (* io.sockets.sockets *)
}.

Definition with_manager (m : UserConnectionManager) (g : server) : server :=
  {| connectionManager := m;
     activeConnections := activeConnections g;
     userCache := userCache g;
     sockets := sockets g |}.

Inductive handshake :=
  | Accepted (user : profile)
  | Rejected (reason : string).

(** The profile the middleware works with, and the cache it leaves. *)
Definition resolve_user (now : Z) (db : store) (userId : string)
    (cache : gmap string cached_user) : option profile * gmap string cached_user :=
  let miss :=
    match single db (filter (λ u, user_id u = userId) (users db)) with
    | Data userData =>
        (Some userData, <[userId := {| cu_profile := userData; cachedAt := now |}]> cache)
    | Error => (None, cache)
    end in
  match cache !! userId with
  | Some user =>
      if bool_decide (now - cachedAt user > USER_CACHE_TTL)%Z then miss
      else (Some (cu_profile user), cache)
  | None => miss
  end.

(** [io.use(async (socket, next) => ...)]. *)
Definition authenticate (now : Z) (db : store) (cred : credential) (g : server)
  : handshake * server :=
  match cred with
  | NoToken => (Rejected "Authentication token required", g)
  | Forged => (Rejected "Authentication failed", g)
  | Signed id uid =>
      match js_or id uid with
      | None => (Rejected "Invalid token structure", g)
      | Some userId =>
          if negb (truthy userId) then (Rejected "Invalid token structure", g)
          else
            let '(found, cache) := resolve_user now db userId (userCache g) in
            let g1 := {| connectionManager := connectionManager g;
                         activeConnections := activeConnections g;
                         userCache := cache;
                         sockets := sockets g |} in
            match found with
            | None => (Rejected "Invalid authentication token", g1)
            | Some user =>
                let userConnectionCount :=
                  getUserSocketCount (user_id user) (connectionManager g) in
                if bool_decide (MAX_CONNECTIONS_PER_USER ≤ userConnectionCount)%nat
                then (Rejected "Maximum connections exceeded", g1)
                else
                  (Accepted user,
                   {| connectionManager := connectionManager g1;
                      activeConnections :=
                        <[user_id user := (Z.of_nat userConnectionCount + 1)%Z]>
                          (activeConnections g1);
                      userCache := userCache g1;
                      sockets := sockets g1 |})
            end
      end
  end.

(** [io.on('connection', socket => ...)]: the transport has put the socket
    in its table and the handler registers it. *)
Definition on_connection (s : socket) (g : server) : server :=
  {| connectionManager := addConnection (sock_userId s) (sock_id s) (connectionManager g);
     activeConnections := activeConnections g;
     userCache := userCache g;
     sockets := sockets g ++ [s] |}.

(** One connection attempt from handshake to registration.  The transport
    starts a socket in the room named after its own id. *)
Definition connect (now : Z) (db : store) (cred : credential) (socketId : string)
    (g : server) : handshake * server :=
  match authenticate now db cred g with
  | (Accepted user, g1) =>
      (Accepted user,
       on_connection {| sock_id := socketId; sock_userId := user_id user;
                        sock_user := user; sock_rooms := [socketId] |} g1)
  | (Rejected reason, g1) => (Rejected reason, g1)
  end.

(** Attempts in a row, each at its own time and with its own socket id,
    all presenting the same credential; the answer lists the outcome of
    each. *)
Fixpoint connect_all (db : store) (cred : credential)
    (attempts : list (Z * string)) (g : server) : list handshake * server :=
  match attempts with
  | [] => ([], g)
  | (now, sid) :: rest =>
      let '(h, g1) := connect now db cred sid g in
      let '(hs, g2) := connect_all db cred rest g1 in
      (h :: hs, g2)
  end.

Definition is_accepted (h : handshake) : Prop :=
  match h with
  | Accepted _ => True
  | Rejected _ => False
  end.

(** A cached profile is filed under its own id. *)
Definition cache_wf (cache : gmap string cached_user) : Prop :=
  ∀ k cu, cache !! k = Some cu → user_id (cu_profile cu) = k.

(** ** Project rooms *)

(** The socket object is shared between the handlers and the transport's
    table: a change to it is seen through both. *)
Definition update_socket (s : socket) (g : server) : server :=
  {| connectionManager := connectionManager g;
     activeConnections := activeConnections g;
     userCache := userCache g;
     sockets := (λ s', if bool_decide (sock_id s' = sock_id s) then s else s')
                  <$> sockets g |}.

(** [socket.join(room)] followed by [connectionManager.addRoom(socket.id, room)],
    for each room of [rooms] in turn. *)
Definition join_all (rooms : list string) (s : socket) (m : UserConnectionManager)
  : socket * UserConnectionManager :=
  ({| sock_id := sock_id s; sock_userId := sock_userId s; sock_user := sock_user s;
      sock_rooms := foldl (λ set room, JsSet.add room set) (sock_rooms s) rooms |},
   foldl (λ m' room, addRoom (sock_id s) room m') m rooms).

(** [.from('chat_rooms').select('id, name').eq('project_id', projectId).limit(50)]. *)
Definition rooms_of_project (projectId : string) (db : store) : answer (list chat_room) :=
  if healthy db
  then Data (take 50 (filter (λ r, room_project_id r = projectId) (chat_rooms db)))
  else Error.

(** [socket.on('join_project_rooms', async (projectId) => ...)]. *)
Definition join_project_rooms (s : socket) (projectId : string) (g : server) (db : store)
  : socket * server * list emission :=
  let membershipResult :=
    single db (filter (λ pm, pm_project_id pm = projectId ∧ pm_user_id pm = sock_userId s)
                 (project_members db)) in
  match membershipResult, rooms_of_project projectId db with
  | Error, _ => (s, g, [Emit ToSender "error" (PError "Not a project member")])
  | Data _, Error => (s, g, [Emit ToSender "error" (PError "Failed to fetch chat rooms")])
  | Data _, Data rooms =>
      let projectRoom := "project_" +:+ projectId in
      let roomNames := (λ room, "room_" +:+ room_id room) <$> rooms in
      let '(s1, m1) := join_all (projectRoom :: roomNames) s (connectionManager g) in
      (s1, update_socket s1 (with_manager m1 g),
       [Emit ToSender "rooms_joined"
          (PRoomsJoined projectId ((λ room, (room_id room, room_name room)) <$> rooms))])
  end.

(** ** Message bodies *)

(** The code units [String.prototype.trim] strips: white space and line
    terminators. *)
Definition is_space (c : code_unit) : bool :=
  ((9 <=? c) && (c <=? 13) || (c =? 32) || (c =? 160) || (c =? 5760)
   || (8192 <=? c) && (c <=? 8202) || (c =? 8232) || (c =? 8233)
   || (c =? 8239) || (c =? 8287) || (c =? 12288) || (c =? 65279))%N.

Fixpoint trimStart (s : text) : text :=
  match s with
  | c :: rest => if is_space c then trimStart rest else s
  | [] => []
  end.

Definition trim (s : text) : text := rev (trimStart (rev (trimStart s))).

(** Truthiness of [content?.trim()]. *)
Definition nonblank (content : text) : bool :=
  match trim content with
  | [] => false
  | _ :: _ => true
  end.

(** [content.slice(0, n)]. *)
Definition slice0 (n : nat) (content : text) : text := take n content.

(** ** Per-connection state

    The variables the connection handler closes over, and the timers this
    connection has armed and not yet cancelled or fired. *)

Inductive timer_callback :=
  | TypingExpiry (roomId projectId : string).

Record connection := {
  messageTimestamps : list Z;
  typingTimeouts : gmap string nat;          (* roomId -> timer handle *)
  timers : gmap nat (Z * timer_callback);    (* handle -> due time, callback *)
  next_timer : nat
}.

Definition newConnection : connection :=
  {| messageTimestamps := []; typingTimeouts := ∅; timers := ∅; next_timer := 0 |}.

(** ** Room chat *)

Definition MESSAGE_RATE_LIMIT : nat := 10.
Definition MAX_MESSAGE_LENGTH : nat := 5000.

(** [while (ts.length > 0 && ts[0] < cutoff) ts.shift()]. *)
Fixpoint shift_expired (cutoff : Z) (ts : list Z) : list Z :=
  match ts with
  | t :: rest => if bool_decide (t < cutoff)%Z then shift_expired cutoff rest else ts
  | [] => []
  end.

(** [messageTimestamps.filter(t => t > oneMinuteAgo)]. *)
Definition recentMessages (now : Z) (ts : list Z) : list Z :=
  filter (λ t, (t > now - 60000)%Z) ts.

Definition rate_limited (now : Z) (ts : list Z) : bool :=
  bool_decide (MESSAGE_RATE_LIMIT ≤ length (recentMessages now ts))%nat.

Definition record_send (now : Z) (ts : list Z) : list Z :=
  shift_expired (now - 60000) (ts ++ [now]).

Record message_data := {
  md_roomId : option string;
  md_projectId : option string;
  md_content : option text;
  md_messageType : option string;
  md_replyToMessageId : option nat
}.

Definition error_event (message : string) : emission :=
  Emit ToSender "error" (PError message).

Definition with_timestamps (ts : list Z) (c : connection) : connection :=
  {| messageTimestamps := ts;
     typingTimeouts := typingTimeouts c;
     timers := timers c;
     next_timer := next_timer c |}.

(** [.from('chat_messages').insert(row).select(...).single()]: the store
    numbers the row and appends it. *)
Definition insert_chat_message (roomId userId messageType : string) (content : text)
    (replyTo : option nat) (db : store) : answer chat_message * store :=
  if healthy db then
    let row := {| cm_id := S (length (chat_messages db));
                  cm_room_id := roomId;
                  cm_user_id := userId;
                  cm_message_type := messageType;
                  cm_content := content;
                  cm_reply_to_message_id := replyTo |} in
    (Data row,
     {| users := users db;
        chat_rooms := chat_rooms db;
        project_members := project_members db;
        user_friendships := user_friendships db;
        chat_messages := chat_messages db ++ [row];
        friend_messages := friend_messages db;
        healthy := healthy db |})
  else (Error, db).

(** The replied-to row, fetched only for a truthy id and dropped silently
    when the lookup fails. *)
Definition fetch_reply (replyTo : option nat) (db : store) : option chat_message :=
  match replyTo with
  | Some (S n) =>
      match single db (filter (λ m, cm_id m = S n) (chat_messages db)) with
      | Data m => Some m
      | Error => None
      end
  | _ => None
  end.

(** [socket.on('send_message', async (data) => ...)]. *)
Definition send_message (now : Z) (s : socket) (data : option message_data)
    (c : connection) (db : store) : connection * store * list emission :=
  if rate_limited now (messageTimestamps c) then
    (c, db, [error_event "Message rate limit exceeded"])
  else
    let c1 := with_timestamps (record_send now (messageTimestamps c)) c in
    match data with
    | None => (c1, db, [error_event "Failed to send message"])
    | Some d =>
        match md_roomId d, md_content d, md_projectId d with
        | Some roomId, Some content, Some projectId =>
            if negb (truthy roomId) || negb (nonblank content) || negb (truthy projectId)
            then (c1, db, [error_event "Invalid message data"])
            else
              let trimmedContent := slice0 MAX_MESSAGE_LENGTH content in
              let roomResult :=
                single db (filter (λ r, room_id r = roomId) (chat_rooms db)) in
              let membershipResult :=
                single db (filter (λ pm, pm_project_id pm = projectId
                                         ∧ pm_user_id pm = sock_userId s)
                                  (project_members db)) in
              match roomResult, membershipResult with
              | Error, _ => (c1, db, [error_event "Chat room not found"])
              | Data _, Error => (c1, db, [error_event "Not a project member"])
              | Data room, Data _ =>
                  match insert_chat_message roomId (sock_userId s)
                          (default "text" (md_messageType d)) trimmedContent
                          (md_replyToMessageId d) db with
                  | (Error, db1) => (c1, db1, [error_event "Failed to send message"])
                  | (Data newMessage, db1) =>
                      let processedMessage :=
                        {| pm_message := newMessage;
                           pm_reply_to := fetch_reply (md_replyToMessageId d) db1 |} in
                      (c1, db1,
                       [Emit (ToRoomExceptSender ("room_" +:+ roomId)) "new_message"
                          (PNewMessage processedMessage roomId (room_project_id room));
                        Emit ToSender "message_sent"
                          (PMessageSent processedMessage roomId)])
                  end
              end
        | _, _, _ => (c1, db, [error_event "Invalid message data"])
        end
    end.

(** A connection's [send_message] events in order, each at its own time;
    the answer lists what each one emitted. *)
Fixpoint send_all (s : socket) (events : list (Z * option message_data))
    (c : connection) (db : store) : connection * store * list (list emission) :=
  match events with
  | [] => (c, db, [])
  | (now, data) :: rest =>
      let '(c1, db1, out) := send_message now s data c db in
      let '(c2, db2, outs) := send_all s rest c1 db1 in
      (c2, db2, out :: outs)
  end.

Definition rate_limit_error : emission :=
  error_event "Message rate limit exceeded".

(** The half-open 60-second window that starts at [a]. *)
Definition in_window (a t : Z) : Prop := (a ≤ t < a + 60000)%Z.

(** ** Friend chat *)

Record friend_data := {
  fd_recipientId : option string;
  fd_content : option text
}.

(** The rows selected by
    [or(and(requester = a, addressee = b, accepted),
        and(requester = b, addressee = a, accepted))]. *)
Definition accepted_between (a b : string) (db : store) : list friendship :=
  filter (λ f, (requester_id f = a ∧ addressee_id f = b ∧ fr_status f = "accepted")
               ∨ (requester_id f = b ∧ addressee_id f = a ∧ fr_status f = "accepted"))
         (user_friendships db).

Definition insert_friend_message (senderId recipientId : string) (content : text)
    (db : store) : answer friend_message * store :=
  if healthy db then
    let row := {| fm_id := S (length (friend_messages db));
                  fm_sender_id := senderId;
                  fm_recipient_id := recipientId;
                  fm_content := content |} in
    (Data row,
     {| users := users db;
        chat_rooms := chat_rooms db;
        project_members := project_members db;
        user_friendships := user_friendships db;
        chat_messages := chat_messages db;
        friend_messages := friend_messages db ++ [row];
        healthy := healthy db |})
  else (Error, db).

(** [socket.on('send_friend_message', async (data) => ...)]. *)
Definition send_friend_message (s : socket) (data : option friend_data) (db : store)
  : store * list emission :=
  match data with
  | None => (db, [error_event "Failed to send message"])
  | Some d =>
      let senderId := sock_userId s in
      match fd_recipientId d, fd_content d with
      | Some recipientId, Some content =>
          if negb (truthy recipientId) || negb (nonblank content)
          then (db, [error_event "Invalid message data"])
          else
            match single db (accepted_between senderId recipientId db) with
            | Error => (db, [error_event "Not friends with this user"])
            | Data _ =>
                match insert_friend_message senderId recipientId (trim content) db with
                | (Error, db1) => (db1, [error_event "Failed to send message"])
                | (Data message, db1) =>
                    (db1,
                     [Emit (ToRoom ("user_" +:+ recipientId)) "friend_message"
                        (PFriendMessage senderId message);
                      Emit ToSender "friend_message_sent" (PFriendMessageSent message)])
                end
            end
      | _, _ => (db, [error_event "Invalid message data"])
      end
  end.

(** ** Typing indicators *)

Record typing_data := {
  td_roomId : string;
  td_projectId : string
}.

Definition clearTimeout (h : nat) (c : connection) : connection :=
  {| messageTimestamps := messageTimestamps c;
     typingTimeouts := typingTimeouts c;
     timers := delete h (timers c);
     next_timer := next_timer c |}.

(** [setTimeout(cb, delay)] at time [now]: a fresh handle, armed. *)
Definition setTimeout (now delay : Z) (cb : timer_callback) (c : connection)
  : nat * connection :=
  (next_timer c,
   {| messageTimestamps := messageTimestamps c;
      typingTimeouts := typingTimeouts c;
      timers := <[next_timer c := ((now + delay)%Z, cb)]> (timers c);
      next_timer := S (next_timer c) |}).

Definition with_typingTimeouts (tt : gmap string nat) (c : connection) : connection :=
  {| messageTimestamps := messageTimestamps c;
     typingTimeouts := tt;
     timers := timers c;
     next_timer := next_timer c |}.

(** [socket.on('typing_start', (data) => ...)]. *)
Definition typing_start (now : Z) (s : socket) (data : typing_data) (c : connection)
  : connection * list emission :=
  let roomId := td_roomId data in
  let projectId := td_projectId data in
  let c1 :=
    match typingTimeouts c !! roomId with
    | Some h => clearTimeout h c
    | None => c
    end in
  let out :=
    [Emit (ToRoomExceptSender ("room_" +:+ roomId)) "user_typing"
       (PUserTyping (sock_userId s) (username (sock_user s)) roomId projectId)] in
  let '(timeout, c2) := setTimeout now 5000 (TypingExpiry roomId projectId) c1 in
  (with_typingTimeouts (<[roomId := timeout]> (typingTimeouts c2)) c2, out).

(** [socket.on('typing_stop', (data) => ...)]. *)
Definition typing_stop (s : socket) (data : typing_data) (c : connection)
  : connection * list emission :=
  let roomId := td_roomId data in
  let projectId := td_projectId data in
  let c1 :=
    match typingTimeouts c !! roomId with
    | Some h => with_typingTimeouts (delete roomId (typingTimeouts c)) (clearTimeout h c)
    | None => c
    end in
  (c1,
   [Emit (ToRoomExceptSender ("room_" +:+ roomId)) "user_stopped_typing"
      (PUserStoppedTyping (sock_userId s) roomId projectId)]).

(** Timer [h] comes due: it leaves the timer table and its callback runs. *)
Definition fire_timer (h : nat) (s : socket) (c : connection)
  : connection * list emission :=
  match timers c !! h with
  | Some (_, TypingExpiry roomId projectId) =>
      let c1 := clearTimeout h c in
      (with_typingTimeouts (delete roomId (typingTimeouts c1)) c1,
       [Emit (ToRoomExceptSender ("room_" +:+ roomId)) "user_stopped_typing"
          (PUserStoppedTyping (sock_userId s) roomId projectId)])
  | None => (c, [])
  end.

(** The (connection, room) pair is in the typing state at time [now]: a
    timer armed by an earlier [typing_start] is recorded for the room and
    still pending. *)
Definition is_typing (now : Z) (roomId : string) (c : connection) : Prop :=
  ∃ h due cb, typingTimeouts c !! roomId = Some h
              ∧ timers c !! h = Some (due, cb) ∧ (now < due)%Z.

(** Handles are issued in increasing order: every pending timer was armed
    before [next_timer]. *)
Definition timers_wf (c : connection) : Prop :=
  ∀ h t, timers c !! h = Some t → h < next_timer c.

(** ** Video signaling *)

Record offer_data := {
  od_roomId : string;
  od_projectId : string;
  od_targetUserId : string;
  od_offer : string
}.

(** The condition of the scan in [video_offer]. *)
Definition is_offer_target (targetUserId videoRoomName : string) (clientSocket : socket)
  : bool :=
  bool_decide (sock_userId clientSocket = targetUserId)
  && JsSet.has videoRoomName (sock_rooms clientSocket).

(** [socket.on('video_offer', (data) => ...)]. *)
Definition video_offer (s : socket) (data : offer_data) (g : server) : list emission :=
  let videoRoomName := "video_" +:+ od_roomId data in
  flat_map
    (λ clientSocket,
       if is_offer_target (od_targetUserId data) videoRoomName clientSocket
       then [Emit (ToSocket (sock_id clientSocket)) "video_offer"
               (PVideoOffer (sock_userId s) (username (sock_user s))
                  (avatar_url (sock_user s)) (od_offer data) (od_roomId data))]
       else [])
    (sockets g).

(** ** Disconnect *)

(** [rooms.forEach(room => { if (room.startsWith(prefix)) socket.to(room).emit(...) })]. *)
Definition notify_rooms (pre ev : string) (mk : string → payload) (rooms : JsSet.t)
  : list emission :=
  flat_map
    (λ room,
       if startsWith pre room
       then [Emit (ToRoomExceptSender room) ev (mk (replace_first pre room))]
       else [])
    rooms.

(** [typingTimeouts.forEach(timeout => clearTimeout(timeout)); typingTimeouts.clear()]. *)
Definition clear_typing (c : connection) : connection :=
  {| messageTimestamps := messageTimestamps c;
     typingTimeouts := ∅;
     timers := map_fold (λ _ h t, delete h t) (timers c) (typingTimeouts c);
     next_timer := next_timer c |}.

(** The provisional counter after one disconnect of [userId]. *)
Definition release_slot (userId : string) (ac : gmap string Z) : gmap string Z :=
  if truthy userId then
    let userConnectionCount := default 0%Z (ac !! userId) in
    let newCount := Z.max 0 (userConnectionCount - 1) in
    if bool_decide (newCount ≤ 0)%Z then delete userId ac
    else <[userId := newCount]> ac
  else ac.

(** [socket.on('disconnect', (reason) => ...)]; the transport drops the
    socket from its table. *)
Definition disconnect (s : socket) (c : connection) (g : server)
  : connection * server * list emission :=
  let userId := sock_userId s in
  let video :=
    notify_rooms "video_" "video_participant_left"
      (λ roomId, PVideoParticipantLeft userId roomId) (sock_rooms s) in
  let rooms := getRooms (sock_id s) (connectionManager g) in
  let offline :=
    notify_rooms "project_" "user_offline"
      (λ projectId, PUserOffline userId projectId) rooms in
  (clear_typing c,
   {| connectionManager := removeConnection (sock_id s) (connectionManager g);
      activeConnections := release_slot userId (activeConnections g);
      userCache := userCache g;
      sockets := filter (λ s', sock_id s' ≠ sock_id s) (sockets g) |},
   video ++ offline).

(** ** Registry diagnostics and the stale-counter sweep *)

Record stats := {
  totalConnections : nat;
  uniqueUsers : nat;
  totalRooms : nat
}.

(** [getStats()], without the process memory figures. *)
Definition getStats (m : UserConnectionManager) : stats :=
  {| totalConnections := size (socketUsers m);
     uniqueUsers := size (userSockets m);
     totalRooms := map_fold (λ _ rooms sum, sum + JsSet.size rooms) 0 (socketRooms m) |}.

(** The user ids of the live sockets, as [cleanupStaleConnections] collects
    them. *)
Definition connectedUserIds (g : server) : JsSet.t :=
  foldl (λ set s, if truthy (sock_userId s) then JsSet.add (sock_userId s) set else set)
    JsSet.empty (sockets g).

(** [cleanupStaleConnections()]: the swept state and the number of entries
    removed. *)
Definition cleanupStaleConnections (g : server) : server * nat :=
  let connected := connectedUserIds g in
  let kept := filter (λ kv : string * Z, kv.1 ∈ connected) (activeConnections g) in
  ({| connectionManager := connectionManager g;
      activeConnections := kept;
      userCache := userCache g;
      sockets := sockets g |},
   size (activeConnections g) - size kept).

(** One operation on the registry. *)
Inductive registry_op :=
  | OpAddConnection (userId socketId : string)
  | OpAddRoom (socketId room : string)
  | OpRemoveConnection (socketId : string).

Definition apply_op (op : registry_op) (m : UserConnectionManager) : UserConnectionManager :=
  match op with
  | OpAddConnection userId socketId => addConnection userId socketId m
  | OpAddRoom socketId room => addRoom socketId room m
  | OpRemoveConnection socketId => removeConnection socketId m
  end.

(** How the handlers use the registry: a connection is added once, under a
    fresh socket id and an authenticated (non-empty) user id, and rooms are
    added to registered connections. *)
Definition op_ok (op : registry_op) (m : UserConnectionManager) : Prop :=
  match op with
  | OpAddConnection userId socketId =>
      truthy userId = true ∧ socketUsers m !! socketId = None
  | OpAddRoom socketId _ => is_Some (socketUsers m !! socketId)
  | OpRemoveConnection _ => True
  end.

(** The three maps of the registry tell the same story: a user's set is
    never empty and never lists a socket twice, its sockets are exactly the
    ones filed under that user, and room sets are kept for registered
    sockets only. *)
Definition registry_consistent (m : UserConnectionManager) : Prop :=
  (∀ u set, userSockets m !! u = Some set → set ≠ [] ∧ NoDup set)
  ∧ (∀ u sid, sid ∈ sockets_of u m ↔ socketUsers m !! sid = Some u)
  ∧ (∀ sid u, socketUsers m !! sid = Some u → truthy u = true)
  ∧ (∀ sid, is_Some (socketRooms m !! sid) ↔ is_Some (socketUsers m !! sid)).

(** ** Handlers outside the chat relays *)

Inductive signal_payload :=
  | PFriendOnline (userId uname : string)
  | POnlineFriendsList (onlineFriends : list string)
  | POnlineUsers (projectId : string) (online : list profile)
  | PVideoParticipantJoined (userId uname avatarUrl roomId : string)
  | PVideoCurrentParticipants (participants : list (string * string * string))
      (roomId : string)
  | PVideoAnswer (userId uname answer roomId : string)
  | PVideoIceCandidate (userId candidate roomId : string)
  | PVideoLeft (userId roomId : string)
  | PScreenShareStarted (userId uname roomId : string)
  | PScreenShareStopped (userId roomId : string)
  | PVideoCallMessage (userId uname : string) (message : text) (timestamp : Z)
      (roomId : string).

(** What the presence and video handlers send. *)
Record signal := Signal {
  sg_target : target;
  sg_event : string;
  sg_payload : signal_payload
}.

Definition signals_named (ev : string) (out : list signal) : list signal :=
  filter (λ e, sg_event e = ev) out.

(** [socket.join(room)] and [socket.leave(room)]. *)
Definition socket_join (room : string) (s : socket) : socket :=
  {| sock_id := sock_id s; sock_userId := sock_userId s; sock_user := sock_user s;
     sock_rooms := JsSet.add room (sock_rooms s) |}.

Definition socket_leave (room : string) (s : socket) : socket :=
  {| sock_id := sock_id s; sock_userId := sock_userId s; sock_user := sock_user s;
     sock_rooms := JsSet.delete room (sock_rooms s) |}.

(** The accepted friendships of a user, as [join_friends_chat] selects
    them, or [None] when the query answers with an error. *)
Definition accepted_of (userId : string) (db : store) : option (list friendship) :=
  if healthy db
  then Some (filter (λ f, (requester_id f = userId ∨ addressee_id f = userId)
                          ∧ fr_status f = "accepted")
               (user_friendships db))
  else None.

Definition friendIds (userId : string) (db : store) : list string :=
  match accepted_of userId db with
  | Some friendships =>
      (λ f, if bool_decide (requester_id f = userId)
            then addressee_id f else requester_id f) <$> friendships
  | None => []
  end.

(** [socket.on('join_friends_chat', async () => ...)]. *)
Definition join_friends_chat (s : socket) (g : server) (db : store)
  : socket * server * list signal :=
  let userId := sock_userId s in
  let s1 := socket_join ("user_" +:+ userId) s in
  let g1 := update_socket s1 g in
  let friends := friendIds userId db in
  let onlineFriends :=
    filter (λ friendId, Exists (λ s', sock_userId s' = friendId) (sockets g1)) friends in
  (s1, g1,
   ((λ friendId, Signal (ToRoom ("user_" +:+ friendId)) "friend_online"
                   (PFriendOnline userId (username (sock_user s)))) <$> friends)
   ++ [Signal ToSender "online_friends_list" (POnlineFriendsList onlineFriends)]).

(** The entry [get_online_users] makes for a live socket. *)
Definition online_entry (clientSocket : socket) : profile :=
  {| user_id := sock_userId clientSocket;
     username := username (sock_user clientSocket);
     full_name := full_name (sock_user clientSocket);
     avatar_url := avatar_url (sock_user clientSocket) |}.

Definition is_online_in (projectId : string) (clientSocket : socket) : bool :=
  truthy (sock_userId clientSocket)
  && JsSet.has ("project_" +:+ projectId) (sock_rooms clientSocket).

(** The [users] field of the [online_users] reply. *)
Definition onlineUsers (projectId : string) (g : server) : list profile :=
  online_entry <$> filter (λ cs, is_online_in projectId cs = true) (sockets g).

(** [socket.on('get_online_users', (data) => ...)]. *)
Definition get_online_users (s : socket) (projectId : string) (g : server) : list signal :=
  [Signal ToSender "online_users" (POnlineUsers projectId (onlineUsers projectId g))].

(** ** Video calls *)

Record video_join_data := {
  vj_roomId : string;
  vj_projectId : string;
  vj_userId : string;
  vj_username : string;
  vj_avatarUrl : string
}.

(** The entry [video_call_join] lists for a socket already in the call. *)
Definition participant_entry (clientSocket : socket) : string * string * string :=
  (sock_userId clientSocket, username (sock_user clientSocket),
   avatar_url (sock_user clientSocket)).

(** [io.sockets.sockets.get(id)]. *)
Fixpoint socket_by_id (sid : string) (table : list socket) : option socket :=
  match table with
  | [] => None
  | cs :: rest => if bool_decide (sock_id cs = sid) then Some cs else socket_by_id sid rest
  end.

(** [io.in(room).fetchSockets()] on one node.  The adapter keeps, for the
    room, the set [members] of socket ids in the order they joined it; the
    answer lists, in that order, the members that are live sockets. *)
Definition socketsInRoom (members : JsSet.t) (g : server) : list socket :=
  omap (λ sid, socket_by_id sid (sockets g)) members.

(** [socket.on('video_call_join', async (data) => ...)], with [members] the
    adapter's set for the call room before the join. *)
Definition video_call_join (members : JsSet.t) (s : socket) (data : video_join_data)
    (g : server) : socket * server * list signal :=
  let videoRoomName := "video_" +:+ vj_roomId data in
  let s1 := socket_join videoRoomName s in
  let g1 := update_socket s1 g in
  let participantsInCall :=
    participant_entry
      <$> filter (λ cs, sock_id cs ≠ sock_id s)
            (socketsInRoom (JsSet.add (sock_id s) members) g1) in
  (s1, g1,
   [Signal (ToRoomExceptSender videoRoomName) "video_participant_joined"
      (PVideoParticipantJoined (vj_userId data) (vj_username data)
         (vj_avatarUrl data) (vj_roomId data));
    Signal ToSender "video_current_participants"
      (PVideoCurrentParticipants participantsInCall (vj_roomId data))]).

Record relay_data := {
  rd_roomId : string;
  rd_projectId : string;
  rd_targetUserId : string;
  rd_body : string          (* the answer or the ICE candidate *)
}.

(** The scan shared by [video_answer] and [video_ice_candidate]. *)
Definition relay_to_target (ev : string) (body : signal_payload) (data : relay_data)
    (g : server) : list signal :=
  let videoRoomName := "video_" +:+ rd_roomId data in
  flat_map
    (λ clientSocket,
       if is_offer_target (rd_targetUserId data) videoRoomName clientSocket
       then [Signal (ToSocket (sock_id clientSocket)) ev body]
       else [])
    (sockets g).

(** [socket.on('video_answer', (data) => ...)]. *)
Definition video_answer (s : socket) (data : relay_data) (g : server) : list signal :=
  relay_to_target "video_answer"
    (PVideoAnswer (sock_userId s) (username (sock_user s)) (rd_body data) (rd_roomId data))
    data g.

(** [socket.on('video_ice_candidate', (data) => ...)]. *)
Definition video_ice_candidate (s : socket) (data : relay_data) (g : server)
  : list signal :=
  relay_to_target "video_ice_candidate"
    (PVideoIceCandidate (sock_userId s) (rd_body data) (rd_roomId data))
    data g.

Record room_data := {
  rm_roomId : string;
  rm_projectId : string;
  rm_userId : string
}.

(** [socket.on('video_call_leave', (data) => ...)]. *)
Definition video_call_leave (s : socket) (data : room_data) (g : server)
  : socket * server * list signal :=
  let videoRoomName := "video_" +:+ rm_roomId data in
  let s1 := socket_leave videoRoomName s in
  (s1, update_socket s1 g,
   [Signal (ToRoomExceptSender videoRoomName) "video_participant_left"
      (PVideoLeft (rm_userId data) (rm_roomId data))]).

(** [socket.on('screen_share_started', (data) => ...)]. *)
Definition screen_share_started (s : socket) (data : room_data) : list signal :=
  [Signal (ToRoomExceptSender ("video_" +:+ rm_roomId data)) "screen_share_started"
     (PScreenShareStarted (rm_userId data) (username (sock_user s)) (rm_roomId data))].

(** [socket.on('screen_share_stopped', (data) => ...)]. *)
Definition screen_share_stopped (s : socket) (data : room_data) : list signal :=
  [Signal (ToRoomExceptSender ("video_" +:+ rm_roomId data)) "screen_share_stopped"
     (PScreenShareStopped (rm_userId data) (rm_roomId data))].

Record call_message_data := {
  cmd_roomId : string;
  cmd_projectId : string;
  cmd_userId : string;
  cmd_username : string;
  cmd_message : option text
}.

(** [socket.on('video_call_message', (data) => ...)], at time [now]. *)
Definition video_call_message (now : Z) (s : socket) (data : call_message_data)
  : list signal :=
  match cmd_message data with
  | Some message =>
      if nonblank message then
        [Signal (ToRoomExceptSender ("video_" +:+ cmd_roomId data)) "video_call_message"
           (PVideoCallMessage (cmd_userId data) (cmd_username data) (trim message) now
              (cmd_roomId data))]
      else []
  | None => []
  end.

(** ** A connection's typing signals and timers in sequence *)

Inductive typing_event :=
  | TypingStart (now : Z) (data : typing_data)
  | TypingStop (data : typing_data)
  | TimerDue (h : nat).

Definition typing_step (s : socket) (ev : typing_event) (c : connection)
  : connection * list emission :=
  match ev with
  | TypingStart now data => typing_start now s data c
  | TypingStop data => typing_stop s data c
  | TimerDue h => fire_timer h s c
  end.

Fixpoint typing_run (s : socket) (evs : list typing_event) (c : connection)
  : connection * list emission :=
  match evs with
  | [] => (c, [])
  | ev :: rest =>
      let '(c1, out) := typing_step s ev c in
      let '(c2, outs) := typing_run s rest c1 in
      (c2, out ++ outs)
  end.

(** Every pending timer is the one recorded for its room. *)
Definition timers_tracked (c : connection) : Prop :=
  ∀ h due roomId projectId,
    timers c !! h = Some (due, TypingExpiry roomId projectId) →
    typingTimeouts c !! roomId = Some h.

(** ** The sends a connection's limiter lets through *)

(** The times of the events of a run that pass the rate-limit check. *)
Fixpoint limiter_passes (s : socket) (events : list (Z * option message_data))
    (c : connection) (db : store) : list Z :=
  match events with
  | [] => []
  | (now, data) :: rest =>
      let '(c1, db1, _) := send_message now s data c db in
      (if rate_limited now (messageTimestamps c) then [] else [now])
      ++ limiter_passes s rest c1 db1
  end.

(** The clock does not run backwards over a list of timestamps. *)
Fixpoint nondecreasing (ts : list Z) : Prop :=
  match ts with
  | [] => True
  | t :: rest => Forall (λ t', (t ≤ t')%Z) rest ∧ nondecreasing rest
  end.

(** ** Runs of registry operations *)

Fixpoint run_ops (ops : list registry_op) (m : UserConnectionManager)
  : UserConnectionManager :=
  match ops with
  | [] => m
  | op :: rest => run_ops rest (apply_op op m)
  end.

(** Each operation of the run is used as the handlers use it, in the state
    it meets. *)
Fixpoint ops_ok (ops : list registry_op) (m : UserConnectionManager) : Prop :=
  match ops with
  | [] => True
  | op :: rest => op_ok op m ∧ ops_ok rest (apply_op op m)
  end.

(** ** The provisional counter against the registry *)

(** The counter of every user is the number of connections the registry
    holds for that user, with no entry at zero. *)
Definition counter_agrees (g : server) : Prop :=
  ∀ u, activeConnections g !! u
       = if Nat.eqb (getUserSocketCount u (connectionManager g)) 0 then None
         else Some (Z.of_nat (getUserSocketCount u (connectionManager g))).

(** The reasons a handshake can be refused with. *)
Definition handshake_reasons : list string :=
  ["Authentication token required"; "Authentication failed"; "Invalid token structure";
   "Invalid authentication token"; "Maximum connections exceeded"].

(** The minute that ends at [now]. *)
Definition in_last_minute (now t : Z) : Prop := (now - 60000 < t ≤ now)%Z.

(** What the limiter's list knows of the sends [passed] so far, the clock
    standing at [last]: it agrees with them on every minute that ends at
    [last] or later, none of them lies in the future, and no minute holds
    more than the limit. *)
Definition limiter_inv (ts passed : list Z) (last : Z) : Prop :=
  (∀ later, (last ≤ later)%Z → recentMessages later ts = recentMessages later passed)
  ∧ Forall (λ t, (t ≤ last)%Z) passed
  ∧ ∀ now, length (filter (in_last_minute now) passed) ≤ MESSAGE_RATE_LIMIT.

(** The messages of the error events of the two relays. *)
Definition send_message_errors : list string :=
  ["Message rate limit exceeded"; "Failed to send message"; "Invalid message data";
   "Chat room not found"; "Not a project member"].

Definition send_friend_message_errors : list string :=
  ["Failed to send message"; "Invalid message data"; "Not friends with this user"].

(** The room names [join_project_rooms] joins for a project: the project
    room, then one room per chat room of the project, fifty at most. *)
Definition project_room_names (projectId : string) (db : store) : list string :=
  ("project_" +:+ projectId)
  :: ((λ room, "room_" +:+ room_id room)
        <$> take 50 (filter (λ r, room_project_id r = projectId) (chat_rooms db))).

Definition user_stopped_typing_event (s : socket) (roomId projectId : string) : emission :=
  Emit (ToRoomExceptSender ("room_" +:+ roomId)) "user_stopped_typing"
    (PUserStoppedTyping (sock_userId s) roomId projectId).

(** ** Shapes used in the statements *)

(** The window of a connection whose earlier traffic is at least a minute
    older than [a] and which has sent [new] since. *)
Definition window_split (a : Z) (new : list Z) (c : connection) : Prop :=
  ∃ old, messageTimestamps c = old ++ new
         ∧ Forall (λ t, (t ≤ a - 60000)%Z) old.

(** The row [send_message] writes for a payload. *)
Definition row_of (s : socket) (d : message_data) (roomId : string) (content : text)
    (db : store) : chat_message :=
  {| cm_id := S (length (chat_messages db));
     cm_room_id := roomId;
     cm_user_id := sock_userId s;
     cm_message_type := default "text" (md_messageType d);
     cm_content := slice0 MAX_MESSAGE_LENGTH content;
     cm_reply_to_message_id := md_replyToMessageId d |}.

Definition user_typing_event (s : socket) (d : typing_data) : emission :=
  Emit (ToRoomExceptSender ("room_" +:+ td_roomId d)) "user_typing"
    (PUserTyping (sock_userId s) (username (sock_user s)) (td_roomId d) (td_projectId d)).

Definition offer_event (s : socket) (d : offer_data) (clientSocket : socket) : emission :=
  Emit (ToSocket (sock_id clientSocket)) "video_offer"
    (PVideoOffer (sock_userId s) (username (sock_user s)) (avatar_url (sock_user s))
       (od_offer d) (od_roomId d)).

(** ** Sample data *)

(** A registry with two sockets of one user and one of another, each in
    some rooms. *)
Definition demo_manager : UserConnectionManager :=
  addRoom "s3" "project_p1"
    (addRoom "s2" "room_r1"
       (addRoom "s2" "project_p1"
          (addConnection "bob" "s3"
             (addConnection "alice" "s2"
                (addConnection "alice" "s1" newManager))))).

Definition demo_profile (u : string) : profile :=
  {| user_id := u; username := u; full_name := u; avatar_url := "" |}.

Definition demo_socket (sid u : string) (rooms : JsSet.t) : socket :=
  {| sock_id := sid; sock_userId := u; sock_user := demo_profile u; sock_rooms := rooms |}.

Definition demo_server : server :=
  {| connectionManager := demo_manager;
     activeConnections := <["bob" := 1%Z]> (<["alice" := 2%Z]> ∅);
     userCache := ∅;
     sockets := [demo_socket "s1" "alice" [];
                 demo_socket "s2" "alice" ["project_p1"; "room_r1"];
                 demo_socket "s3" "bob" ["project_p1"; "video_v1"]] |}.

Definition demo_store : store :=
  {| users := [demo_profile "alice"; demo_profile "bob"; demo_profile "carol"];
     chat_rooms := [{| room_id := "r1"; room_project_id := "p1"; room_name := "general" |};
                    {| room_id := "r2"; room_project_id := "p2"; room_name := "private" |}];
     project_members := [{| pm_id := "m1"; pm_project_id := "p1"; pm_user_id := "alice" |};
                         {| pm_id := "m2"; pm_project_id := "p2"; pm_user_id := "bob" |}];
     user_friendships := [{| fr_id := "f1"; requester_id := "alice";
                             addressee_id := "bob"; fr_status := "accepted" |};
                          {| fr_id := "f2"; requester_id := "carol";
                             addressee_id := "alice"; fr_status := "pending" |}];
     chat_messages := [];
     friend_messages := [];
     healthy := true |}.

Definition newServer : server :=
  {| connectionManager := newManager;
     activeConnections := ∅;
     userCache := ∅;
     sockets := [] |}.

Definition ten_attempts : list (Z * string) :=
  [(0, "c0"); (1, "c1"); (2, "c2"); (3, "c3"); (4, "c4");
   (5, "c5"); (6, "c6"); (7, "c7"); (8, "c8"); (9, "c9")]%Z.

Definition hello : text := [104; 105]%N.

Definition alice : socket := demo_socket "s1" "alice" ["project_p1"; "room_r1"].

Definition hello_r1 : message_data :=
  {| md_roomId := Some "r1"; md_projectId := Some "p1"; md_content := Some hello;
     md_messageType := None; md_replyToMessageId := None |}.

Definition blank_r1 : message_data :=
  {| md_roomId := Some "r1"; md_projectId := Some "p1"; md_content := Some [32]%N;
     md_messageType := None; md_replyToMessageId := None |}.

Definition ten_sends : list (Z * option message_data) :=
  [(0, Some hello_r1); (1000, None); (2000, Some blank_r1); (3000, Some hello_r1);
   (4000, Some hello_r1); (5000, Some hello_r1); (6000, Some hello_r1);
   (7000, Some hello_r1); (8000, Some hello_r1); (59999, Some hello_r1)]%Z.

Definition long_text : text := replicate (S MAX_MESSAGE_LENGTH) 104%N.

Definition long_r1 : message_data :=
  {| md_roomId := Some "r1"; md_projectId := Some "p1"; md_content := Some long_text;
     md_messageType := None; md_replyToMessageId := None |}.

(** A room of project [p2] named in a send that claims project [p1]. *)
Definition hello_r2_as_p1 : message_data :=
  {| md_roomId := Some "r2"; md_projectId := Some "p1"; md_content := Some hello;
     md_messageType := None; md_replyToMessageId := None |}.

Definition hello_to (recipient : string) (content : text) : friend_data :=
  {| fd_recipientId := Some recipient; fd_content := Some content |}.


Definition typing_r1 : typing_data := {| td_roomId := "r1"; td_projectId := "p1" |}.

Definition offer_to (target : string) : offer_data :=
  {| od_roomId := "v1"; od_projectId := "p1"; od_targetUserId := target;
     od_offer := "v=0 o=- 46117317 2 IN IP4 127.0.0.1" |}.

(** A store that does not answer. *)
Definition down_store : store :=
  {| users := users demo_store;
     chat_rooms := chat_rooms demo_store;
     project_members := project_members demo_store;
     user_friendships := user_friendships demo_store;
     chat_messages := [];
     friend_messages := [];
     healthy := false |}.

(** The sample server, with the profile of [alice] cached at time 1000. *)
Definition cached_server : server :=
  {| connectionManager := demo_manager;
     activeConnections := activeConnections demo_server;
     userCache := {["alice" := {| cu_profile := demo_profile "alice"; cachedAt := 1000 |}]};
     sockets := sockets demo_server |}.

(** The sample server with a left-over counter for a user without sockets. *)
Definition stale_server : server :=
  {| connectionManager := demo_manager;
     activeConnections := <["zed" := 3%Z]> (activeConnections demo_server);
     userCache := ∅;
     sockets := sockets demo_server |}.

Definition twelve_sends : list (Z * option message_data) :=
  (λ t, (t, Some hello_r1)) <$> [0; 1; 2; 3; 4; 5; 6; 7; 8; 9; 10; 60000]%Z.

Definition alice_s2 : socket := demo_socket "s2" "alice" ["project_p1"; "room_r1"].

Definition bob_s3 : socket := demo_socket "s3" "bob" ["project_p1"; "video_v1"].

Definition join_v1 : video_join_data :=
  {| vj_roomId := "v1"; vj_projectId := "p1"; vj_userId := "alice";
     vj_username := "alice"; vj_avatarUrl := "" |}.

Definition leave_v1 : room_data :=
  {| rm_roomId := "v1"; rm_projectId := "p1"; rm_userId := "bob" |}.

(** A call in progress: [carol] joined room [v1] first, then [bob] from
    two connections; the table lists the sockets in connection order. *)
Definition call_server : server :=
  {| connectionManager := demo_manager;
     activeConnections := activeConnections demo_server;
     userCache := ∅;
     sockets := [demo_socket "s1" "alice" [];
                 demo_socket "s2" "alice" ["project_p1"; "room_r1"];
                 demo_socket "s3" "bob" ["project_p1"; "video_v1"];
                 demo_socket "s4" "bob" ["video_v1"];
                 demo_socket "s9" "carol" ["video_v1"]] |}.




(** * Properties *)

(** ** Sets and the registry *)

Lemma JsSet_add_fresh (x : string) (s : JsSet.t) :
  x ∉ s → JsSet.add x s = s ++ [x].
Proof.
  intros Hx. unfold JsSet.add, JsSet.has.
  by rewrite bool_decide_eq_false_2.
Qed.

Lemma JsSet_add_NoDup (x : string) (s : JsSet.t) :
  NoDup s → NoDup (JsSet.add x s).
Proof.
  intros Hs. unfold JsSet.add, JsSet.has.
  case_bool_decide as Hx; [done|].
  apply NoDup_app. split_and!; [done| |apply NoDup_singleton].
  intros y Hy ->%list_elem_of_singleton. done.
Qed.

Lemma filter_out_length (x : string) (s : list string) :
  NoDup s → x ∈ s → S (length (filter (λ y, y ≠ x) s)) = length s.
Proof.
  induction 1 as [|y s Hy Hs IH]; intros Hx.
  - by apply elem_of_nil in Hx.
  - apply elem_of_cons in Hx as [->|Hx].
    + rewrite filter_cons_False by naive_solver.
      simpl. f_equal.
      clear IH Hs. induction s as [|z s IH]; [done|].
      apply not_elem_of_cons in Hy as [Hne Hy].
      rewrite filter_cons_True by done. simpl. f_equal. by apply IH.
    + rewrite filter_cons_True by (intros ->; done).
      simpl. f_equal. by apply IH.
Qed.

Lemma JsSet_delete_size (x : string) (s : JsSet.t) :
  NoDup s → x ∈ s → S (JsSet.size (JsSet.delete x s)) = JsSet.size s.
Proof. apply filter_out_length. Qed.

Lemma getUserSocketCount_sockets_of (u : string) (m : UserConnectionManager) :
  getUserSocketCount u m = length (sockets_of u m).
Proof.
  unfold getUserSocketCount, sockets_of.
  by destruct (userSockets m !! u).
Qed.

Lemma addConnection_sockets_of (u sid : string) (m : UserConnectionManager) :
  sid ∉ sockets_of u m →
  sockets_of u (addConnection u sid m) = sockets_of u m ++ [sid].
Proof.
  unfold sockets_of, addConnection. simpl. intros Hsid.
  destruct (userSockets m !! u) as [set|] eqn:Hu; simpl in *.
  - rewrite lookup_alter_eq, Hu. simpl. by apply JsSet_add_fresh.
  - rewrite lookup_alter_eq, lookup_insert_eq. simpl. done.
Qed.

Lemma addConnection_rooms_other (u sid sid' : string) (m : UserConnectionManager) :
  sid' ≠ sid → getRooms sid' (addConnection u sid m) = getRooms sid' m.
Proof.
  intros Hne. unfold getRooms, addConnection. simpl.
  by rewrite lookup_insert_ne.
Qed.

Lemma addConnection_wf (u sid : string) (m : UserConnectionManager) :
  manager_wf m → manager_wf (addConnection u sid m).
Proof.
  intros Hwf v set. unfold addConnection. simpl.
  destruct (decide (v = u)) as [->|Hne].
  - rewrite lookup_alter_eq.
    destruct (userSockets m !! u) as [set0|] eqn:Hu.
    + rewrite Hu. simpl. intros [= <-]. apply JsSet_add_NoDup. by eapply Hwf.
    + rewrite lookup_insert_eq. simpl. intros [= <-].
      apply JsSet_add_NoDup, NoDup_nil_2.
  - rewrite lookup_alter_ne by done.
    destruct (userSockets m !! u).
    + apply Hwf.
    + rewrite lookup_insert_ne by done. apply Hwf.
Qed.

Lemma addRoom_wf (sid room : string) (m : UserConnectionManager) :
  manager_wf m → manager_wf (addRoom sid room m).
Proof. intros Hwf v set. unfold addRoom. simpl. apply Hwf. Qed.

Lemma removeConnection_wf (sid : string) (m : UserConnectionManager) :
  manager_wf m → manager_wf (removeConnection sid m).
Proof.
  intros Hwf v set. unfold removeConnection. simpl.
  destruct (socketUsers m !! sid) as [u|]; [|apply Hwf].
  destruct (truthy u); [|apply Hwf].
  destruct (userSockets m !! u) as [set0|] eqn:Hu; [|apply Hwf].
  destruct (Nat.eqb _ _).
  - intros [_ Hv]%lookup_delete_Some. by eapply Hwf.
  - destruct (decide (v = u)) as [->|Hne].
    + rewrite lookup_insert_eq. intros [= <-].
      unfold JsSet.delete. apply NoDup_filter. by eapply Hwf.
    + rewrite lookup_insert_ne by done. apply Hwf.
Qed.

Lemma newManager_wf : manager_wf newManager.
Proof. intros u set. unfold newManager. simpl. by rewrite lookup_empty. Qed.

Lemma removeConnection_count (sid u : string) (m : UserConnectionManager) :
  manager_wf m →
  truthy u = true →
  socketUsers m !! sid = Some u →
  sid ∈ sockets_of u m →
  S (getUserSocketCount u (removeConnection sid m)) = getUserSocketCount u m.
Proof.
  intros Hwf Hu Hsid Hin.
  unfold sockets_of in Hin. unfold getUserSocketCount, removeConnection. simpl.
  rewrite Hsid, Hu.
  destruct (userSockets m !! u) as [set|] eqn:Hset; simpl in Hin;
    [|by apply elem_of_nil in Hin].
  pose proof (JsSet_delete_size sid set (Hwf _ _ Hset) Hin) as Hsize.
  destruct (Nat.eqb_spec (JsSet.size (JsSet.delete sid set)) 0) as [Hz|Hnz].
  - rewrite lookup_delete_eq. by rewrite Hz in Hsize.
  - by rewrite lookup_insert_eq.
Qed.

Lemma removeConnection_rooms_other (sid sid' : string) (m : UserConnectionManager) :
  sid' ≠ sid →
  socketRooms (removeConnection sid m) !! sid' = socketRooms m !! sid'.
Proof. intros Hne. unfold removeConnection. simpl. by rewrite lookup_delete_ne. Qed.

(** C7: when one connection of a user who holds at least two is
    disconnected, the registry's count for that user drops by exactly one
    and the room set recorded for every other connection, of that user or
    of anyone else, is what it was. *)
Theorem disconnect_releases_one_connection
    (s : socket) (c : connection) (g : server) (u : string) :
  manager_wf (connectionManager g) →
  truthy u = true →
  socketUsers (connectionManager g) !! sock_id s = Some u →
  sock_id s ∈ sockets_of u (connectionManager g) →
  2 ≤ getUserSocketCount u (connectionManager g) →
  let g' := (disconnect s c g).1.2 in
  S (getUserSocketCount u (connectionManager g'))
    = getUserSocketCount u (connectionManager g)
  ∧ ∀ sid, sid ≠ sock_id s →
      socketRooms (connectionManager g') !! sid
        = socketRooms (connectionManager g) !! sid
      ∧ getRooms sid (connectionManager g') = getRooms sid (connectionManager g).
Proof.
  intros Hwf Hu Hsid Hin _. simpl. split.
  - by apply removeConnection_count.
  - intros sid Hne.
    pose proof (removeConnection_rooms_other (sock_id s) sid (connectionManager g) Hne)
      as Hrooms.
    split; [exact Hrooms|]. unfold getRooms. by rewrite Hrooms.
Qed.

Lemma disconnect_releases_one_connection_witness :
  let g' := (disconnect (demo_socket "s1" "alice" []) newConnection demo_server).1.2 in
  getUserSocketCount "alice" (connectionManager demo_server) = 2
  ∧ S (getUserSocketCount "alice" (connectionManager g')) = 2
  ∧ getRooms "s2" (connectionManager g') = ["project_p1"; "room_r1"]
  ∧ getRooms "s3" (connectionManager g') = ["project_p1"].
Proof.
  assert (Hwf : manager_wf (connectionManager demo_server)).
  { repeat (apply addRoom_wf || apply addConnection_wf). apply newManager_wf. }
  assert (Hin : sock_id (demo_socket "s1" "alice" [])
                  ∈ sockets_of "alice" (connectionManager demo_server)).
  { vm_compute. set_solver. }
  assert (Hcount : 2 ≤ getUserSocketCount "alice" (connectionManager demo_server)).
  { vm_compute. lia. }
  destruct (disconnect_releases_one_connection
              (demo_socket "s1" "alice" []) newConnection demo_server "alice"
              Hwf eq_refl eq_refl Hin Hcount) as [H1 H2].
  split; [reflexivity|]. split; [exact H1|].
  split.
  - rewrite (proj2 (H2 "s2" ltac:(done))). reflexivity.
  - rewrite (proj2 (H2 "s3" ltac:(done))). reflexivity.
Defined.

(** ** The handshake and the connection cap *)

Section ConnectionCap.

(** One user, known to a healthy store, presenting a token that decodes
    to its id. *)
Variables (db : store) (u : string) (row : profile) (id uid : option string).
Hypothesis store_up : healthy db = true.
Hypothesis known_user : filter (λ p, user_id p = u) (users db) = [row].
Hypothesis token_names_user : js_or id uid = Some u.
Hypothesis user_truthy : truthy u = true.

Lemma known_user_id : user_id row = u.
Proof using known_user.
  assert (Hin : row ∈ filter (λ p, user_id p = u) (users db))
    by (rewrite known_user; apply list_elem_of_singleton; done).
  by apply list_elem_of_filter in Hin as [? _].
Qed.

Lemma resolve_user_found (now : Z) (cache : gmap string cached_user) :
  cache_wf cache →
  ∃ user cache',
    resolve_user now db u cache = (Some user, cache')
    ∧ user_id user = u ∧ cache_wf cache'.
Proof using store_up known_user.
  intros Hwf. unfold resolve_user, single.
  rewrite store_up, known_user.
  assert (Hmiss : cache_wf
            (<[u := {| cu_profile := row; cachedAt := now |}]> cache)).
  { intros k cu. destruct (decide (k = u)) as [->|Hne].
    - rewrite lookup_insert_eq. intros [= <-]. apply known_user_id.
    - rewrite lookup_insert_ne by done. apply Hwf. }
  destruct (cache !! u) as [cu|] eqn:Hcu.
  - case_bool_decide.
    + eexists _, _. split; [done|]. split; [apply known_user_id|done].
    + eexists _, _. split; [done|]. split; [by eapply Hwf|done].
  - eexists _, _. split; [done|]. split; [apply known_user_id|done].
Qed.

Lemma authenticate_below_cap (now : Z) (g : server) :
  cache_wf (userCache g) →
  getUserSocketCount u (connectionManager g) < MAX_CONNECTIONS_PER_USER →
  ∃ user g',
    authenticate now db (Signed id uid) g = (Accepted user, g')
    ∧ user_id user = u
    ∧ connectionManager g' = connectionManager g
    ∧ sockets g' = sockets g
    ∧ cache_wf (userCache g').
Proof using All.
  intros Hwf Hlt. unfold authenticate.
  rewrite token_names_user, user_truthy. simpl.
  destruct (resolve_user_found now (userCache g) Hwf)
    as (user & cache' & -> & Huser & Hwf').
  rewrite Huser. rewrite bool_decide_eq_false_2 by lia.
  eexists _, _. split; [done|]. by repeat split.
Qed.

Lemma authenticate_at_cap (now : Z) (g : server) :
  cache_wf (userCache g) →
  MAX_CONNECTIONS_PER_USER ≤ getUserSocketCount u (connectionManager g) →
  ∃ g',
    authenticate now db (Signed id uid) g
      = (Rejected "Maximum connections exceeded", g')
    ∧ connectionManager g' = connectionManager g
    ∧ sockets g' = sockets g.
Proof using All.
  intros Hwf Hge. unfold authenticate.
  rewrite token_names_user, user_truthy. simpl.
  destruct (resolve_user_found now (userCache g) Hwf)
    as (user & cache' & -> & Huser & Hwf').
  rewrite Huser. rewrite bool_decide_eq_true_2 by done.
  eexists. split; [done|]. by split.
Qed.

Lemma connect_all_below_cap (attempts : list (Z * string)) (g : server) :
  cache_wf (userCache g) →
  NoDup (attempts.*2) →
  (∀ sid, sid ∈ attempts.*2 → sid ∉ sockets_of u (connectionManager g)) →
  length (sockets_of u (connectionManager g)) + length attempts
    ≤ MAX_CONNECTIONS_PER_USER →
  ∃ hs g',
    connect_all db (Signed id uid) attempts g = (hs, g')
    ∧ length hs = length attempts
    ∧ Forall is_accepted hs
    ∧ sockets_of u (connectionManager g')
        = sockets_of u (connectionManager g) ++ attempts.*2
    ∧ cache_wf (userCache g').
Proof using All.
  revert g. induction attempts as [|[now sid] rest IH]; intros g Hwf Hnd Hfresh Hlen.
  - eexists _, _. split; [done|]. rewrite app_nil_r. by repeat split.
  - simpl in *. apply NoDup_cons in Hnd as [Hsid Hnd].
    destruct (authenticate_below_cap now g Hwf) as (user & g1 & Hauth & Huser & Hm & _ & Hwf1).
    { rewrite getUserSocketCount_sockets_of. lia. }
    unfold connect. rewrite Hauth. simpl.
    set (g2 := on_connection _ g1).
    assert (Hsock : sockets_of u (connectionManager g2)
                    = sockets_of u (connectionManager g) ++ [sid]).
    { unfold g2, on_connection. simpl. rewrite Huser, Hm.
      apply addConnection_sockets_of, Hfresh. left. }
    destruct (IH g2) as (hs & g' & Hall & Hlen' & Hacc & Hsocks & Hwf').
    + done.
    + done.
    + intros sid' Hin. rewrite Hsock.
      apply not_elem_of_app. split.
      * apply Hfresh. by right.
      * intros ->%list_elem_of_singleton. done.
    + rewrite Hsock, length_app. simpl. lia.
    + rewrite Hall. eexists _, _. split; [done|].
      split; [simpl; by rewrite Hlen'|].
      split; [by constructor|].
      split; [|done].
      rewrite Hsocks, Hsock, <- app_assoc. done.
Qed.

(** C3: starting from a registry that holds no connection of the user,
    [N ≤ 10] connection attempts in a row, with pairwise distinct socket
    ids and no disconnect, are all accepted and leave the registry's count
    for the user at [N]; when that count is 10, one more attempt is
    refused at the handshake with the reason "Maximum connections
    exceeded" and neither the registry nor the socket table changes. *)
Theorem connection_cap (attempts : list (Z * string)) (g : server) :
  cache_wf (userCache g) →
  getUserSocketCount u (connectionManager g) = 0 →
  NoDup (attempts.*2) →
  length attempts ≤ 10 →
  let '(hs, g') := connect_all db (Signed id uid) attempts g in
  length hs = length attempts
  ∧ Forall is_accepted hs
  ∧ getUserSocketCount u (connectionManager g') = length attempts
  ∧ (length attempts = 10 →
     ∀ now sid,
       let '(h, g'') := connect now db (Signed id uid) sid g' in
       h = Rejected "Maximum connections exceeded"
       ∧ connectionManager g'' = connectionManager g'
       ∧ sockets g'' = sockets g').
Proof using All.
  intros Hwf Hzero Hnd Hlen.
  assert (Hnil : sockets_of u (connectionManager g) = []).
  { rewrite getUserSocketCount_sockets_of in Hzero.
    by apply length_zero_iff_nil. }
  destruct (connect_all_below_cap attempts g Hwf Hnd)
    as (hs & g' & -> & Hlen' & Hacc & Hsocks & Hwf').
  { intros sid _. rewrite Hnil. apply not_elem_of_nil. }
  { rewrite Hnil. simpl. unfold MAX_CONNECTIONS_PER_USER. lia. }
  assert (Hcount : getUserSocketCount u (connectionManager g') = length attempts).
  { rewrite getUserSocketCount_sockets_of, Hsocks, Hnil. simpl.
    by rewrite length_fmap. }
  split; [done|]. split; [done|]. split; [done|].
  intros Hten now sid.
  destruct (authenticate_at_cap now g' Hwf') as (g'' & Hauth & Hm & Hs).
  { rewrite Hcount, Hten. done. }
  unfold connect. rewrite Hauth. by repeat split.
Qed.

End ConnectionCap.

Lemma connection_cap_witness :
  let '(hs, g') := connect_all demo_store (Signed (Some "alice") None) ten_attempts newServer in
  length hs = 10
  ∧ Forall is_accepted hs
  ∧ getUserSocketCount "alice" (connectionManager g') = 10
  ∧ (length ten_attempts = 10 →
     ∀ now sid,
       let '(h, g'') := connect now demo_store (Signed (Some "alice") None) sid g' in
       h = Rejected "Maximum connections exceeded"
       ∧ connectionManager g'' = connectionManager g'
       ∧ sockets g'' = sockets g').
Proof.
  apply (connection_cap demo_store "alice" (demo_profile "alice") (Some "alice") None
           eq_refl eq_refl eq_refl eq_refl ten_attempts newServer).
  - intros k cu. simpl. by rewrite lookup_empty.
  - reflexivity.
  - compute_done.
  - simpl. lia.
Defined.

(** ** The rate limiter *)

Lemma shift_expired_app (cutoff : Z) (old rest : list Z) :
  Forall (λ t, (cutoff ≤ t)%Z) rest →
  shift_expired cutoff (old ++ rest) = shift_expired cutoff old ++ rest.
Proof.
  intros Hrest. induction old as [|t old IH]; simpl.
  - destruct Hrest as [|t rest Ht Hrest]; simpl; [done|].
    by rewrite bool_decide_eq_false_2 by lia.
  - case_bool_decide; [apply IH|done].
Qed.

Lemma shift_expired_Forall (P : Z → Prop) (cutoff : Z) (ts : list Z) :
  Forall P ts → Forall P (shift_expired cutoff ts).
Proof.
  induction 1 as [|t ts Ht Hts IH]; simpl; [done|].
  case_bool_decide; [done|by constructor].
Qed.

Lemma recentMessages_shift_expired (later cutoff : Z) (ts : list Z) :
  (cutoff ≤ later - 60000)%Z →
  recentMessages later (shift_expired cutoff ts) = recentMessages later ts.
Proof.
  intros Hle. unfold recentMessages.
  induction ts as [|t ts IH]; simpl; [done|].
  case_bool_decide; [|done].
  rewrite filter_cons_False by lia. apply IH.
Qed.

Lemma recentMessages_old (a now : Z) (old : list Z) :
  (a ≤ now)%Z →
  Forall (λ t, (t ≤ a - 60000)%Z) old →
  recentMessages now old = [].
Proof.
  intros Hnow. unfold recentMessages.
  induction 1 as [|t old Ht Hold IH]; [done|].
  rewrite filter_cons_False by lia. apply IH.
Qed.

Lemma recentMessages_window (a now : Z) (new : list Z) :
  in_window a now →
  Forall (in_window a) new →
  recentMessages now new = new.
Proof.
  unfold in_window, recentMessages. intros Hnow.
  induction 1 as [|t new Ht Hnew IH]; [done|].
  rewrite filter_cons_True by lia. by rewrite IH.
Qed.

(** Once the limiter lets a send through, the window is updated the same
    way whatever the payload and the store say. *)
Lemma send_message_records (now : Z) (s : socket) (data : option message_data)
    (c : connection) (db : store) :
  rate_limited now (messageTimestamps c) = false →
  messageTimestamps (send_message now s data c db).1.1
    = record_send now (messageTimestamps c).
Proof.
  intros Hpass. unfold send_message. rewrite Hpass.
  destruct data as [d|]; [|done].
  destruct (md_roomId d), (md_content d), (md_projectId d); try done.
  destruct (_ || _); [done|].
  destruct (single db _); [|done].
  destruct (single db _); [|done].
  by destruct (insert_chat_message _ _ _ _ _ _) as [[?|] ?].
Qed.

(** An emission that differs from each one of an explicit list is not in it. *)
Ltac not_emitted :=
  simpl;
  let Hin := fresh "Hin" in
  intros Hin;
  repeat (apply elem_of_cons in Hin as [Hin|Hin]; [discriminate Hin|]);
  by apply elem_of_nil in Hin.

(** A send that the limiter lets through emits no rate-limit error. *)
Lemma send_message_passes (now : Z) (s : socket) (data : option message_data)
    (c : connection) (db : store) :
  rate_limited now (messageTimestamps c) = false →
  rate_limit_error ∉ (send_message now s data c db).2.
Proof.
  intros Hpass. unfold send_message, rate_limit_error, error_event. rewrite Hpass.
  destruct data as [d|]; [|not_emitted].
  destruct (md_roomId d), (md_content d), (md_projectId d); try not_emitted.
  destruct (_ || _); [not_emitted|].
  destruct (single db _); [|not_emitted].
  destruct (single db _); [|not_emitted].
  destruct (insert_chat_message _ _ _ _ _ _) as [[?|] ?]; not_emitted.
Qed.

Lemma send_message_limited (now : Z) (s : socket) (data : option message_data)
    (c : connection) (db : store) :
  rate_limited now (messageTimestamps c) = true →
  send_message now s data c db = (c, db, [rate_limit_error]).
Proof. intros Hlim. unfold send_message. by rewrite Hlim. Qed.

Lemma rate_limited_window (a now : Z) (new : list Z) (c : connection) :
  window_split a new c →
  Forall (in_window a) new →
  in_window a now →
  rate_limited now (messageTimestamps c)
    = bool_decide (MESSAGE_RATE_LIMIT ≤ length new).
Proof.
  intros (old & -> & Hold) Hnew Hnow. unfold rate_limited.
  assert (Hrec : recentMessages now (old ++ new) = new).
  { unfold recentMessages. rewrite filter_app.
    fold (recentMessages now old). fold (recentMessages now new).
    rewrite (recentMessages_old a) by (done || apply Hnow).
    by rewrite (recentMessages_window a). }
  by rewrite Hrec.
Qed.

Lemma record_send_window (a now : Z) (new : list Z) (c c' : connection) :
  window_split a new c →
  Forall (in_window a) new →
  in_window a now →
  messageTimestamps c' = record_send now (messageTimestamps c) →
  window_split a (new ++ [now]) c'.
Proof.
  intros (old & Hts & Hold) Hnew Hnow Hrec.
  exists (shift_expired (now - 60000) old). rewrite Hrec, Hts. split.
  - unfold record_send. rewrite <- app_assoc. apply shift_expired_app.
    apply Forall_app. split.
    + eapply Forall_impl; [exact Hnew|]. unfold in_window in *. intros; simpl in *; lia.
    + apply Forall_singleton. lia.
  - by apply shift_expired_Forall.
Qed.

Lemma send_all_window (s : socket) (a : Z) (events : list (Z * option message_data))
    (new : list Z) (c : connection) (db : store) :
  window_split a new c →
  Forall (in_window a) new →
  Forall (λ e, in_window a e.1) events →
  length new + length events ≤ MESSAGE_RATE_LIMIT →
  let '(c', _, outs) := send_all s events c db in
  length outs = length events
  ∧ Forall (λ out, rate_limit_error ∉ out) outs
  ∧ window_split a (new ++ events.*1) c'.
Proof.
  revert new c db.
  induction events as [|[now data] rest IH]; intros new c db Hsplit Hnew Hev Hlen.
  - simpl. rewrite app_nil_r. by repeat split.
  - apply Forall_cons in Hev as [Hnow Hev]. simpl in Hnow, Hlen. simpl.
    assert (Hpass : rate_limited now (messageTimestamps c) = false).
    { rewrite (rate_limited_window a now new) by done.
      apply bool_decide_eq_false_2. lia. }
    pose proof (send_message_records now s data c db Hpass) as Hrec.
    pose proof (send_message_passes now s data c db Hpass) as Hout.
    destruct (send_message now s data c db) as [[c1 db1] out]. simpl in Hrec, Hout.
    specialize (IH (new ++ [now]) c1 db1).
    destruct (send_all s rest c1 db1) as [[c2 db2] outs].
    destruct IH as (Hl & Houts & Hsplit').
    + by eapply record_send_window.
    + apply Forall_app. split; [done|by apply Forall_singleton].
    + done.
    + rewrite length_app. simpl. lia.
    + split; [simpl; by rewrite Hl|].
      split; [by constructor|].
      by rewrite <- app_assoc in Hsplit'.
Qed.

(** The limiter on a quiet connection: on a connection whose earlier sends
    are at least a minute older than the start [a] of a 60-second window,
    ten [send_message] events
    with timestamps in the window all pass the rate limiter, whatever they
    carry, and an eleventh event in the same window is answered with the
    rate-limit error alone, leaving the store and the connection as they
    were: nothing is persisted. *)
Theorem rate_limit_window (s : socket) (a : Z)
    (events : list (Z * option message_data)) (last : Z * option message_data)
    (c : connection) (db : store) :
  Forall (λ t, (t ≤ a - 60000)%Z) (messageTimestamps c) →
  length events = 10 →
  Forall (λ e, in_window a e.1) events →
  in_window a last.1 →
  let '(c', db', outs) := send_all s events c db in
  length outs = 10
  ∧ Forall (λ out, rate_limit_error ∉ out) outs
  ∧ send_message last.1 s last.2 c' db' = (c', db', [rate_limit_error]).
Proof.
  intros Hold Hlen Hev Hlast.
  assert (Hsplit : window_split a [] c).
  { exists (messageTimestamps c). by rewrite app_nil_r. }
  pose proof (send_all_window s a events [] c db Hsplit (Forall_nil_2 _) Hev) as Hall.
  destruct (send_all s events c db) as [[c' db'] outs].
  destruct Hall as (Hl & Houts & Hsplit').
  { simpl. rewrite Hlen. done. }
  split; [by rewrite Hl|]. split; [done|].
  apply send_message_limited.
  rewrite (rate_limited_window a last.1 (events.*1)).
  - apply bool_decide_eq_true_2. rewrite length_fmap, Hlen. done.
  - done.
  - by apply Forall_fmap.
  - done.
Qed.

(** C10: a [send_message] that passes the rate-limit check has its
    timestamp recorded whatever the payload and the store then do, so in
    every outcome, rejections included, it counts as one more recent send
    for any later event of the following minute. *)
Theorem rejected_send_consumes_slot (now : Z) (s : socket)
    (data : option message_data) (c : connection) (db : store) :
  rate_limited now (messageTimestamps c) = false →
  let c' := (send_message now s data c db).1.1 in
  messageTimestamps c' = record_send now (messageTimestamps c)
  ∧ now ∈ messageTimestamps c'
  ∧ ∀ later, (now ≤ later < now + 60000)%Z →
      length (recentMessages later (messageTimestamps c'))
        = S (length (recentMessages later (messageTimestamps c))).
Proof.
  intros Hpass. simpl.
  rewrite (send_message_records now s data c db Hpass).
  split; [done|]. unfold record_send. split.
  - rewrite shift_expired_app by (apply Forall_singleton; lia).
    apply elem_of_app. right. by apply list_elem_of_singleton.
  - intros later Hlater.
    rewrite recentMessages_shift_expired by lia.
    unfold recentMessages. rewrite filter_app, length_app.
    rewrite filter_cons_True by lia. simpl. lia.
Qed.

Lemma rate_limit_window_witness :
  let '(c', db', outs) := send_all alice ten_sends newConnection demo_store in
  length outs = 10
  ∧ Forall (λ out, rate_limit_error ∉ out) outs
  ∧ send_message 59999 alice (Some hello_r1) c' db' = (c', db', [rate_limit_error]).
Proof.
  apply (rate_limit_window alice 0 ten_sends (59999%Z, Some hello_r1)
           newConnection demo_store).
  - constructor.
  - reflexivity.
  - unfold ten_sends, in_window. repeat constructor; simpl; lia.
  - unfold in_window. simpl. lia.
Defined.

Lemma rejected_send_consumes_slot_witness :
  let c' := (send_message 5 alice None newConnection demo_store).1.1 in
  (send_message 5 alice None newConnection demo_store).2
    = [error_event "Failed to send message"]
  ∧ messageTimestamps c' = [5%Z]
  ∧ length (recentMessages 60004 (messageTimestamps c')) = 1.
Proof.
  destruct (rejected_send_consumes_slot 5 alice None newConnection demo_store eq_refl)
    as (Hrec & _ & Hlater).
  split; [reflexivity|]. split; [exact Hrec|].
  apply (Hlater 60004%Z). lia.
Defined.

(** Ten sends that are all rejected after the rate-limit check use up the
    budget: a well-formed eleventh send in the same minute is refused by
    the limiter. *)
Example invalid_sends_exhaust_budget :
  let '(c', db', outs) :=
    send_all alice ((λ t, (t, Some blank_r1)) <$> [0; 1; 2; 3; 4; 5; 6; 7; 8; 9]%Z)
      newConnection demo_store in
  outs = replicate 10 [error_event "Invalid message data"]
  ∧ db' = demo_store
  ∧ (send_message 10 alice (Some hello_r1) c' db').2 = [rate_limit_error].
Proof. vm_compute. done. Qed.

(** ** Project rooms *)

Lemma single_Data_healthy {A} (db : store) (rows : list A) (r : A) :
  single db rows = Data r → healthy db = true.
Proof. unfold single. by destruct (healthy db). Qed.

Lemma addRoom_getRooms (sid room : string) (m : UserConnectionManager) :
  getRooms sid (addRoom sid room m) = JsSet.add room (getRooms sid m).
Proof.
  unfold getRooms, addRoom. simpl.
  destruct (socketRooms m !! sid) as [set|] eqn:Hsid.
  - by rewrite lookup_alter_eq, Hsid.
  - by rewrite lookup_alter_eq, lookup_insert_eq.
Qed.

Lemma join_all_getRooms (rooms : list string) (s : socket) (m : UserConnectionManager) :
  getRooms (sock_id s) (join_all rooms s m).2
  = foldl (λ set room, JsSet.add room set) (getRooms (sock_id s) m) rooms.
Proof.
  unfold join_all. simpl. revert m.
  induction rooms as [|room rooms IH]; intros m; [done|]. simpl.
  by rewrite IH, addRoom_getRooms.
Qed.

(** Someone who is not a member of the project joins nothing. *)
Lemma join_project_rooms_non_member (s : socket) (projectId : string)
    (g : server) (db : store) :
  filter (λ pm, pm_project_id pm = projectId ∧ pm_user_id pm = sock_userId s)
    (project_members db) = [] →
  join_project_rooms s projectId g db
  = (s, g, [error_event "Not a project member"]).
Proof.
  intros Hnone. unfold join_project_rooms, single. rewrite Hnone.
  by destruct (healthy db).
Qed.

(** A member is recorded in the project room and in the rooms of that
    project, and in no other room. *)
Lemma join_project_rooms_member (s : socket) (projectId : string)
    (g : server) (db : store) (member : project_member) :
  single db (filter (λ pm, pm_project_id pm = projectId ∧ pm_user_id pm = sock_userId s)
               (project_members db)) = Data member →
  ∃ rooms,
    Forall (λ room, room ∈ chat_rooms db ∧ room_project_id room = projectId) rooms
    ∧ getRooms (sock_id s) (connectionManager (join_project_rooms s projectId g db).1.2)
      = foldl (λ set room, JsSet.add room set)
          (getRooms (sock_id s) (connectionManager g))
          (("project_" +:+ projectId) :: ((λ room, "room_" +:+ room_id room) <$> rooms)).
Proof.
  intros Hmember. unfold join_project_rooms, rooms_of_project.
  rewrite Hmember, (single_Data_healthy _ _ _ Hmember).
  set (rooms := take 50 (filter _ (chat_rooms db))).
  exists rooms. split.
  - apply Forall_forall. intros room Hin.
    apply (subseteq_take 50), list_elem_of_filter in Hin as [Hp Hin]. done.
  - pose proof (join_all_getRooms
                  (("project_" +:+ projectId) :: ((λ room, "room_" +:+ room_id room) <$> rooms))
                  s (connectionManager g)) as Hjoin.
    destruct (join_all _ s (connectionManager g)) as [s1 m1]. done.
Qed.

(** ** Room chat: what is persisted *)

(** A send that passes the limiter, the payload validation and both
    lookups is persisted and relayed.  The project the room belongs to is
    only echoed in the broadcast. *)
Lemma send_message_accepted (now : Z) (s : socket) (d : message_data)
    (roomId projectId : string) (content : text)
    (room : chat_room) (member : project_member) (c : connection) (db : store) :
  rate_limited now (messageTimestamps c) = false →
  md_roomId d = Some roomId →
  md_content d = Some content →
  md_projectId d = Some projectId →
  truthy roomId = true →
  nonblank content = true →
  truthy projectId = true →
  single db (filter (λ r, room_id r = roomId) (chat_rooms db)) = Data room →
  single db (filter (λ pm, pm_project_id pm = projectId ∧ pm_user_id pm = sock_userId s)
               (project_members db)) = Data member →
  ∃ db' reply,
    send_message now s (Some d) c db
      = (with_timestamps (record_send now (messageTimestamps c)) c, db',
         [Emit (ToRoomExceptSender ("room_" +:+ roomId)) "new_message"
            (PNewMessage {| pm_message := row_of s d roomId content db;
                            pm_reply_to := reply |} roomId (room_project_id room));
          Emit ToSender "message_sent"
            (PMessageSent {| pm_message := row_of s d roomId content db;
                             pm_reply_to := reply |} roomId)])
    ∧ chat_messages db' = chat_messages db ++ [row_of s d roomId content db]
    ∧ friend_messages db' = friend_messages db.
Proof.
  intros Hpass Hr Hc Hp Htr Hnb Htp Hroom Hmember.
  unfold send_message. rewrite Hpass, Hr, Hc, Hp, Htr, Hnb, Htp. simpl.
  rewrite Hroom, Hmember.
  unfold insert_chat_message. rewrite (single_Data_healthy _ _ _ Hroom).
  eexists _, _. split; [reflexivity|]. done.
Qed.

(** C9: when a [send_message] passes the limiter, the payload validation
    and the room and membership lookups, and its content is longer than
    5000 code units, the row appended to [chat_messages] carries the first
    5000 code units of the content and nothing more. *)
Theorem long_content_truncated (now : Z) (s : socket) (d : message_data)
    (roomId projectId : string) (content : text)
    (room : chat_room) (member : project_member) (c : connection) (db : store) :
  rate_limited now (messageTimestamps c) = false →
  md_roomId d = Some roomId →
  md_content d = Some content →
  md_projectId d = Some projectId →
  truthy roomId = true →
  nonblank content = true →
  truthy projectId = true →
  single db (filter (λ r, room_id r = roomId) (chat_rooms db)) = Data room →
  single db (filter (λ pm, pm_project_id pm = projectId ∧ pm_user_id pm = sock_userId s)
               (project_members db)) = Data member →
  MAX_MESSAGE_LENGTH < length content →
  ∃ row,
    chat_messages (send_message now s (Some d) c db).1.2 = chat_messages db ++ [row]
    ∧ cm_content row = take 5000 content
    ∧ length (cm_content row) = 5000
    ∧ cm_content row `prefix_of` content.
Proof.
  intros Hpass Hr Hc Hp Htr Hnb Htp Hroom Hmember Hlong.
  destruct (send_message_accepted now s d roomId projectId content room member c db)
    as (db' & reply & -> & Hmsgs & _); try done.
  exists (row_of s d roomId content db). unfold row_of, slice0. simpl.
  split; [done|]. split; [done|]. split.
  - rewrite length_take. unfold MAX_MESSAGE_LENGTH in *. lia.
  - apply prefix_take.
Qed.

Lemma long_content_truncated_witness :
  ∃ row,
    chat_messages (send_message 0 alice (Some long_r1) newConnection demo_store).1.2
      = chat_messages demo_store ++ [row]
    ∧ cm_content row = take 5000 long_text
    ∧ length (cm_content row) = 5000
    ∧ cm_content row `prefix_of` long_text.
Proof.
  apply (long_content_truncated 0 alice long_r1 "r1" "p1" long_text
           {| room_id := "r1"; room_project_id := "p1"; room_name := "general" |}
           {| pm_id := "m1"; pm_project_id := "p1"; pm_user_id := "alice" |}
           newConnection demo_store);
    try reflexivity.
  unfold long_text. rewrite length_replicate. apply Nat.lt_succ_diag_r.
Defined.

(** C1 fails on the code: [alice] is a member of project [p1] only and
    room [r2] belongs to project [p2]; her [send_message] naming room [r2]
    and project [p1] is not rejected.  The row is written to room [r2] and
    relayed to [room_r2], with the room's own project id in the broadcast. *)
Theorem send_message_foreign_room_persists :
  filter (λ pm, pm_project_id pm = "p2" ∧ pm_user_id pm = "alice")
    (project_members demo_store) = []
  ∧ room_project_id <$> filter (λ r, room_id r = "r2") (chat_rooms demo_store) = ["p2"]
  ∧ let row := {| cm_id := 1; cm_room_id := "r2"; cm_user_id := "alice";
                  cm_message_type := "text"; cm_content := hello;
                  cm_reply_to_message_id := None |} in
    let '(_, db', out) := send_message 0 alice (Some hello_r2_as_p1) newConnection demo_store in
    chat_messages demo_store = []
    ∧ chat_messages db' = [row]
    ∧ out = [Emit (ToRoomExceptSender "room_r2") "new_message"
               (PNewMessage {| pm_message := row; pm_reply_to := None |} "r2" "p2");
             Emit ToSender "message_sent"
               (PMessageSent {| pm_message := row; pm_reply_to := None |} "r2")].
Proof. vm_compute. done. Qed.

(** ** Friend chat *)



(** A send without a recipient id, or whose content is missing or blank, is
    answered with "Invalid message data" and writes nothing, whatever the
    friendships are. *)
Lemma send_friend_message_invalid (s : socket) (d : friend_data) (db : store) :
  truthy_opt (fd_recipientId d) = false
  ∨ fd_content d = None
  ∨ (∃ content, fd_content d = Some content ∧ nonblank content = false) →
  send_friend_message s (Some d) db = (db, [error_event "Invalid message data"]).
Proof.
  unfold send_friend_message.
  destruct (fd_recipientId d) as [r|], (fd_content d) as [content|]; try done.
  simpl. intros [Hr|[?|(content' & [= <-] & Hnb)]]; [by rewrite Hr|done|].
  rewrite Hnb. by rewrite orb_true_r.
Qed.




(** Between [alice] and [bob], who have one accepted row, a send whose
    content is one blank is answered with "Invalid message data" and nothing
    is written. *)
Example friend_message_blank_refused :
  length (accepted_between "alice" "bob" demo_store) = 1
  ∧ send_friend_message alice (Some (hello_to "bob" [32]%N)) demo_store
    = (demo_store, [error_event "Invalid message data"]).
Proof. vm_compute. done. Qed.

(** ** Typing indicators *)

Lemma typing_start_emits (now : Z) (s : socket) (d : typing_data) (c : connection) :
  (typing_start now s d c).2 = [user_typing_event s d].
Proof. done. Qed.

Lemma typing_start_arms (now : Z) (s : socket) (d : typing_data) (c : connection) :
  let c' := (typing_start now s d c).1 in
  typingTimeouts c' !! td_roomId d = Some (next_timer c)
  ∧ timers c' !! next_timer c
      = Some ((now + 5000)%Z, TypingExpiry (td_roomId d) (td_projectId d))
  ∧ next_timer c' = S (next_timer c).
Proof.
  unfold typing_start. simpl.
  destruct (typingTimeouts c !! td_roomId d); simpl;
    by rewrite !lookup_insert_eq.
Qed.

Lemma typing_start_wf (now : Z) (s : socket) (d : typing_data) (c : connection) :
  timers_wf c → timers_wf (typing_start now s d c).1.
Proof.
  intros Hwf h t. unfold typing_start. simpl.
  destruct (typingTimeouts c !! td_roomId d) as [h0|]; simpl.
  - intros [[<- _]|[_ [_ Hh]%lookup_delete_Some]]%lookup_insert_Some; [lia|].
    apply Hwf in Hh. lia.
  - intros [[<- _]|[_ Hh]]%lookup_insert_Some; [lia|].
    apply Hwf in Hh. lia.
Qed.

(** A [typing_start] for a room whose timer [h] is recorded cancels [h]. *)
Lemma typing_start_cancels (now : Z) (s : socket) (d : typing_data) (c : connection)
    (h : nat) :
  typingTimeouts c !! td_roomId d = Some h →
  h < next_timer c →
  timers (typing_start now s d c).1 !! h = None.
Proof.
  intros Hh Hlt. unfold typing_start. rewrite Hh. simpl.
  rewrite lookup_insert_ne by lia. apply lookup_delete_eq.
Qed.

(** C2, as the code has it: a second [typing_start] for the same room,
    received less than five seconds after the first and hence while the
    room's timer is still pending, cancels that timer and arms a new one due
    five seconds later, and broadcasts [user_typing] again: the two signals
    emit two [user_typing] events to the room, and the cancelled timer emits
    nothing if its handle is ever run. *)
Theorem typing_start_twice (t1 t2 : Z) (s : socket) (d : typing_data) (c : connection) :
  timers_wf c →
  (t1 ≤ t2 < t1 + 5000)%Z →
  let '(c1, out1) := typing_start t1 s d c in
  let '(c2, out2) := typing_start t2 s d c1 in
  is_typing t2 (td_roomId d) c1
  ∧ events_named "user_typing" (out1 ++ out2)
      = [user_typing_event s d; user_typing_event s d]
  ∧ timers c2 !! next_timer c = None
  ∧ fire_timer (next_timer c) s c2 = (c2, [])
  ∧ typingTimeouts c2 !! td_roomId d = Some (S (next_timer c))
  ∧ timers c2 !! S (next_timer c)
      = Some ((t2 + 5000)%Z, TypingExpiry (td_roomId d) (td_projectId d)).
Proof.
  intros Hwf Ht.
  pose proof (typing_start_arms t1 s d c) as (Hroom1 & Htimer1 & Hnext1).
  pose proof (typing_start_emits t1 s d c) as Hout1.
  destruct (typing_start t1 s d c) as [c1 out1]. cbn [fst snd] in *.
  pose proof (typing_start_arms t2 s d c1) as (Hroom2 & Htimer2 & _).
  pose proof (typing_start_emits t2 s d c1) as Hout2.
  pose proof (typing_start_cancels t2 s d c1 (next_timer c) Hroom1) as Hcancel.
  destruct (typing_start t2 s d c1) as [c2 out2]. cbn [fst snd] in *.
  rewrite Hnext1 in *. subst out1 out2.
  split.
  { exists (next_timer c), (t1 + 5000)%Z, (TypingExpiry (td_roomId d) (td_projectId d)).
    split; [done|]. split; [done|lia]. }
  split.
  { unfold events_named. simpl. rewrite !filter_cons_True by done. done. }
  assert (Hgone : timers c2 !! next_timer c = None) by (apply Hcancel; lia).
  split; [done|].
  split; [unfold fire_timer; by rewrite Hgone|].
  done.
Qed.

Lemma typing_start_twice_witness :
  let '(c1, out1) := typing_start 0 alice typing_r1 newConnection in
  let '(c2, out2) := typing_start 4999 alice typing_r1 c1 in
  is_typing 4999 "r1" c1
  ∧ events_named "user_typing" (out1 ++ out2)
      = [user_typing_event alice typing_r1; user_typing_event alice typing_r1]
  ∧ timers c2 !! 0 = None
  ∧ fire_timer 0 alice c2 = (c2, [])
  ∧ typingTimeouts c2 !! "r1" = Some 1
  ∧ timers c2 !! 1 = Some (9999%Z, TypingExpiry "r1" "p1").
Proof.
  apply (typing_start_twice 0 4999 alice typing_r1 newConnection).
  - intros h t. simpl. by rewrite lookup_empty.
  - lia.
Defined.

(** C2 as stated fails: [alice] signals [typing_start] for room [r1] at
    time 0 and again one second later, while the first timer is pending;
    the room is sent [user_typing] twice, not once. *)
Lemma second_typing_start_rebroadcasts :
  let '(c1, out1) := typing_start 0 alice typing_r1 newConnection in
  let '(c2, out2) := typing_start 1000 alice typing_r1 c1 in
  (typingTimeouts c1 !! "r1" = Some 0
   ∧ timers c1 !! 0 = Some (5000%Z, TypingExpiry "r1" "p1"))
  ∧ out2 = [Emit (ToRoomExceptSender "room_r1") "user_typing"
              (PUserTyping "alice" "alice" "r1" "p1")]
  ∧ length (events_named "user_typing" (out1 ++ out2)) = 2
  ∧ length (events_named "user_typing" (out1 ++ out2)) ≠ 1.
Proof. vm_compute. repeat split; done. Qed.

(** ** Disconnect: presence *)

Lemma notify_rooms_filter (pre ev : string) (mk : string → payload) (rooms : JsSet.t) :
  notify_rooms pre ev mk rooms
  = (λ room, Emit (ToRoomExceptSender room) ev (mk (replace_first pre room)))
      <$> filter (λ room, startsWith pre room = true) rooms.
Proof.
  unfold notify_rooms. induction rooms as [|room rooms IH]; [done|]. simpl.
  destruct (startsWith pre room) eqn:Hpre.
  - rewrite filter_cons_True by done. simpl. by rewrite IH.
  - rewrite filter_cons_False by (rewrite Hpre; done). by rewrite IH.
Qed.

Lemma events_named_notify_same (pre ev : string) (mk : string → payload) (rooms : JsSet.t) :
  events_named ev (notify_rooms pre ev mk rooms) = notify_rooms pre ev mk rooms.
Proof.
  rewrite notify_rooms_filter. unfold events_named.
  induction (filter _ rooms) as [|room l IH]; [done|]. csimpl.
  rewrite filter_cons_True by done. by rewrite IH.
Qed.

Lemma events_named_notify_other (pre ev ev' : string) (mk : string → payload)
    (rooms : JsSet.t) :
  ev ≠ ev' → events_named ev' (notify_rooms pre ev mk rooms) = [].
Proof.
  intros Hne. rewrite notify_rooms_filter. unfold events_named.
  induction (filter _ rooms) as [|room l IH]; [done|]. csimpl.
  by rewrite filter_cons_False.
Qed.

Lemma notify_rooms_scoped (pre ev : string) (mk : string → payload) (rooms : JsSet.t) :
  Forall (λ e, ∃ room, room ∈ rooms ∧ em_target e = ToRoomExceptSender room)
    (notify_rooms pre ev mk rooms).
Proof.
  rewrite notify_rooms_filter. apply Forall_fmap, Forall_forall.
  intros room [_ Hin]%list_elem_of_filter. simpl. by exists room.
Qed.

(** C6: when the room set the registry holds for a connection contains
    exactly two project rooms, [r1] and [r2], the disconnect handler emits
    exactly two [user_offline] events, one to each of [r1] and [r2] with the
    sender excluded, and nothing it emits is addressed to everyone. *)
Theorem disconnect_two_project_rooms (s : socket) (c : connection) (g : server)
    (r1 r2 : string) :
  filter (λ room, startsWith "project_" room = true)
    (getRooms (sock_id s) (connectionManager g)) = [r1; r2] →
  let out := (disconnect s c g).2 in
  events_named "user_offline" out
    = [Emit (ToRoomExceptSender r1) "user_offline"
         (PUserOffline (sock_userId s) (replace_first "project_" r1));
       Emit (ToRoomExceptSender r2) "user_offline"
         (PUserOffline (sock_userId s) (replace_first "project_" r2))]
  ∧ Forall (λ e, ∃ room, em_target e = ToRoomExceptSender room) out.
Proof.
  intros Htwo. unfold disconnect. cbn [snd]. split.
  - unfold events_named. rewrite filter_app.
    fold (events_named "user_offline"
            (notify_rooms "video_" "video_participant_left"
               (λ roomId, PVideoParticipantLeft (sock_userId s) roomId) (sock_rooms s))).
    rewrite events_named_notify_other by done.
    fold (events_named "user_offline"
            (notify_rooms "project_" "user_offline"
               (λ projectId, PUserOffline (sock_userId s) projectId)
               (getRooms (sock_id s) (connectionManager g)))).
    rewrite events_named_notify_same, notify_rooms_filter, Htwo. done.
  - apply Forall_app. split;
      (eapply Forall_impl; [apply notify_rooms_scoped|]);
      intros e (room & _ & He); by exists room.
Qed.

Lemma disconnect_two_project_rooms_witness :
  let g := with_manager (addRoom "s2" "project_p2" demo_manager) demo_server in
  let out := (disconnect (demo_socket "s2" "alice" ["project_p1"; "video_v1"])
                newConnection g).2 in
  getRooms "s2" (connectionManager g) = ["project_p1"; "room_r1"; "project_p2"]
  ∧ events_named "user_offline" out
      = [Emit (ToRoomExceptSender "project_p1") "user_offline" (PUserOffline "alice" "p1");
         Emit (ToRoomExceptSender "project_p2") "user_offline" (PUserOffline "alice" "p2")]
  ∧ Forall (λ e, ∃ room, em_target e = ToRoomExceptSender room) out.
Proof.
  split; [reflexivity|].
  apply (disconnect_two_project_rooms
           (demo_socket "s2" "alice" ["project_p1"; "video_v1"]) newConnection
           (with_manager (addRoom "s2" "project_p2" demo_manager) demo_server)
           "project_p1" "project_p2").
  reflexivity.
Defined.

(** ** Video signaling *)

Lemma video_offer_filter (s : socket) (d : offer_data) (g : server) :
  video_offer s d g
  = offer_event s d
      <$> filter (λ cs, is_offer_target (od_targetUserId d) ("video_" +:+ od_roomId d) cs = true)
            (sockets g).
Proof.
  unfold video_offer. induction (sockets g) as [|cs l IH]; [done|]. simpl.
  destruct (is_offer_target _ _ cs) eqn:Hcs.
  - rewrite filter_cons_True by done. simpl. by rewrite IH.
  - rewrite filter_cons_False by (rewrite Hcs; done). by rewrite IH.
Qed.

Lemma filter_none {A} (P : A → Prop) `{!∀ x, Decision (P x)} (l : list A) :
  (∀ x, x ∈ l → ¬ P x) → filter P l = [].
Proof.
  induction l as [|x l IH]; intros Hnone; [done|].
  rewrite filter_cons_False by (apply Hnone; left).
  apply IH. intros y Hy. apply Hnone. by right.
Qed.

Lemma is_offer_target_spec (targetUserId videoRoomName : string) (cs : socket) :
  is_offer_target targetUserId videoRoomName cs = true
  ↔ sock_userId cs = targetUserId ∧ videoRoomName ∈ sock_rooms cs.
Proof.
  unfold is_offer_target, JsSet.has.
  rewrite andb_true_iff, !bool_decide_eq_true. done.
Qed.

(** The two cases with at most one matching connection: a [video_offer]
    is forwarded, with its offer unchanged, to the live connection whose
    user id is [targetUserId] and whose rooms include [video_<roomId>], when
    there is exactly one such connection; when there is none, the handler
    emits nothing at all, to the target, to the room or to the caller. *)
Theorem video_offer_routing (s : socket) (d : offer_data) (g : server) :
  let videoRoomName := "video_" +:+ od_roomId d in
  ((∀ cs, cs ∈ sockets g →
          ¬ (sock_userId cs = od_targetUserId d ∧ videoRoomName ∈ sock_rooms cs)) →
   video_offer s d g = [])
  ∧ (∀ peer,
       filter (λ cs, sock_userId cs = od_targetUserId d ∧ videoRoomName ∈ sock_rooms cs)
         (sockets g) = [peer] →
       video_offer s d g
       = [Emit (ToSocket (sock_id peer)) "video_offer"
            (PVideoOffer (sock_userId s) (username (sock_user s))
               (avatar_url (sock_user s)) (od_offer d) (od_roomId d))]).
Proof.
  simpl. rewrite video_offer_filter.
  rewrite (list_filter_iff _ (λ cs, sock_userId cs = od_targetUserId d
                                    ∧ "video_" +:+ od_roomId d ∈ sock_rooms cs))
    by (intros cs; apply is_offer_target_spec).
  split.
  - intros Hnone. by rewrite filter_none.
  - intros peer ->. done.
Qed.

Lemma video_offer_routing_witness :
  video_offer alice (offer_to "carol") demo_server = []
  ∧ video_offer alice (offer_to "alice") demo_server = []
  ∧ video_offer alice (offer_to "bob") demo_server
    = [Emit (ToSocket "s3") "video_offer"
         (PVideoOffer "alice" "alice" "" "v=0 o=- 46117317 2 IN IP4 127.0.0.1" "v1")].
Proof.
  split; [|split].
  - apply (proj1 (video_offer_routing alice (offer_to "carol") demo_server)).
    apply Forall_forall. simpl. repeat constructor; simpl; intros [? ?]; done.
  - apply (proj1 (video_offer_routing alice (offer_to "alice") demo_server)).
    apply Forall_forall. simpl.
    repeat constructor; simpl; intros [? Hin]; try done;
      repeat (apply elem_of_cons in Hin as [Hin|Hin]; [discriminate Hin|]);
      by apply elem_of_nil in Hin.
  - apply (proj2 (video_offer_routing alice (offer_to "bob") demo_server)
             (demo_socket "s3" "bob" ["project_p1"; "video_v1"])).
    reflexivity.
Defined.

(** C8, as the code has it: a [video_offer] is forwarded, with its offer
    unchanged, to every live connection whose user id is [targetUserId] and
    whose rooms include [video_<roomId>], one event to each in table order,
    and to nobody else; so to that connection alone when exactly one
    matches, and when none matches the handler emits nothing at all, to the
    target, to the room or to the caller. *)
Theorem video_offer_reaches_every_match (s : socket) (d : offer_data) (g : server) :
  let videoRoomName := "video_" +:+ od_roomId d in
  let peers :=
    filter (λ cs, sock_userId cs = od_targetUserId d ∧ videoRoomName ∈ sock_rooms cs)
      (sockets g) in
  let forwarded cs :=
    Emit (ToSocket (sock_id cs)) "video_offer"
      (PVideoOffer (sock_userId s) (username (sock_user s))
         (avatar_url (sock_user s)) (od_offer d) (od_roomId d)) in
  video_offer s d g = forwarded <$> peers
  ∧ (∀ peer, peers = [peer] → video_offer s d g = [forwarded peer])
  ∧ ((∀ cs, cs ∈ sockets g →
            ¬ (sock_userId cs = od_targetUserId d ∧ videoRoomName ∈ sock_rooms cs)) →
     video_offer s d g = []).
Proof.
  cbv zeta. rewrite video_offer_filter.
  rewrite (list_filter_iff _ (λ cs, sock_userId cs = od_targetUserId d
                                    ∧ "video_" +:+ od_roomId d ∈ sock_rooms cs))
    by (intros cs; apply is_offer_target_spec).
  split; [done|]. split.
  - by intros peer ->.
  - intros Hnone. by rewrite filter_none.
Qed.

Lemma video_offer_reaches_every_match_witness :
  video_offer alice (offer_to "bob") demo_server
  = [Emit (ToSocket "s3") "video_offer"
       (PVideoOffer "alice" "alice" "" "v=0 o=- 46117317 2 IN IP4 127.0.0.1" "v1")]
  ∧ video_offer alice (offer_to "dave") demo_server = [].
Proof.
  split.
  - apply (proj1 (proj2 (video_offer_reaches_every_match alice (offer_to "bob") demo_server))
             (demo_socket "s3" "bob" ["project_p1"; "video_v1"])).
    reflexivity.
  - apply (proj2 (proj2 (video_offer_reaches_every_match alice (offer_to "dave")
                           demo_server))).
    apply Forall_forall. simpl. repeat constructor; simpl; intros [? ?]; done.
Defined.

(** C8 as stated fails: [bob] is in room [video_v1] with two connections,
    [s3] and [s4]; a [video_offer] that names him is forwarded to both, not
    to a single connection. *)
Lemma video_offer_reaches_both_connections :
  filter (λ cs, sock_userId cs = "bob" ∧ "video_v1" ∈ sock_rooms cs) (sockets call_server)
  = [demo_socket "s3" "bob" ["project_p1"; "video_v1"];
     demo_socket "s4" "bob" ["video_v1"]]
  ∧ video_offer alice (offer_to "bob") call_server
    = [Emit (ToSocket "s3") "video_offer"
         (PVideoOffer "alice" "alice" "" "v=0 o=- 46117317 2 IN IP4 127.0.0.1" "v1");
       Emit (ToSocket "s4") "video_offer"
         (PVideoOffer "alice" "alice" "" "v=0 o=- 46117317 2 IN IP4 127.0.0.1" "v1")].
Proof. split; reflexivity. Qed.

(** * Further properties of the handlers *)

(** ** The registry as a whole *)

Lemma sockets_of_addConnection_other (u v sid : string) (m : UserConnectionManager) :
  v ≠ u → sockets_of v (addConnection u sid m) = sockets_of v m.
Proof.
  intros Hne. unfold sockets_of, addConnection. simpl.
  rewrite lookup_alter_ne by done.
  destruct (userSockets m !! u); [done|].
  by rewrite lookup_insert_ne.
Qed.

Lemma sockets_of_removeConnection (u v sid : string) (m : UserConnectionManager) :
  socketUsers m !! sid = Some u →
  truthy u = true →
  sockets_of v (removeConnection sid m)
  = if decide (v = u) then JsSet.delete sid (sockets_of u m) else sockets_of v m.
Proof.
  intros Hsid Hu. unfold sockets_of, removeConnection. simpl. rewrite Hsid, Hu.
  destruct (userSockets m !! u) as [set|] eqn:Hset.
  - destruct (Nat.eqb_spec (JsSet.size (JsSet.delete sid set)) 0) as [Hz|Hnz].
    + apply length_zero_iff_nil in Hz.
      destruct (decide (v = u)) as [->|Hne].
      * rewrite lookup_delete_eq. simpl. by rewrite Hz.
      * by rewrite lookup_delete_ne.
    + destruct (decide (v = u)) as [->|Hne].
      * by rewrite lookup_insert_eq.
      * by rewrite lookup_insert_ne.
  - destruct (decide (v = u)) as [->|Hne]; [by rewrite Hset|done].
Qed.

Lemma removeConnection_unregistered (sid : string) (m : UserConnectionManager) :
  socketUsers m !! sid = None →
  socketRooms m !! sid = None →
  removeConnection sid m = m.
Proof.
  intros Hu Hr. unfold removeConnection. rewrite Hu.
  rewrite !delete_id by done. by destruct m.
Qed.

Lemma newManager_consistent : registry_consistent newManager.
Proof.
  unfold registry_consistent, newManager, sockets_of. simpl.
  split_and!; intros *; rewrite ?lookup_empty; try done.
  all: split; try done; try by intros ?%elem_of_nil.
  all: by intros [? ?].
Qed.

Lemma addConnection_consistent (u sid : string) (m : UserConnectionManager) :
  registry_consistent m →
  truthy u = true →
  socketUsers m !! sid = None →
  registry_consistent (addConnection u sid m).
Proof.
  intros (Hsets & Hlink & Htruthy & Hrooms) Hu Hfresh.
  assert (Hnotin : ∀ v, sid ∉ sockets_of v m).
  { intros v Hin. apply Hlink in Hin. congruence. }
  split_and!.
  - intros v set. unfold addConnection. simpl.
    destruct (decide (v = u)) as [->|Hne].
    + intros Hv.
      assert (Hset : set = sockets_of u m ++ [sid]).
      { rewrite <- addConnection_sockets_of by apply Hnotin.
        unfold sockets_of, addConnection. simpl. by rewrite Hv. }
      subst set. split.
      * by destruct (sockets_of u m).
      * apply NoDup_app. split_and!.
        -- unfold sockets_of. destruct (userSockets m !! u) as [set0|] eqn:Hset0; simpl.
           ++ by apply (Hsets u).
           ++ apply NoDup_nil_2.
        -- intros x Hx ->%list_elem_of_singleton. by apply (Hnotin u).
        -- apply NoDup_singleton.
    + rewrite lookup_alter_ne by done.
      destruct (userSockets m !! u).
      * apply Hsets.
      * rewrite lookup_insert_ne by done. apply Hsets.
  - intros v x.
    assert (Hsu : socketUsers (addConnection u sid m) = <[sid := u]> (socketUsers m))
      by done.
    rewrite Hsu. destruct (decide (v = u)) as [->|Hne].
    + rewrite addConnection_sockets_of by apply Hnotin.
      rewrite elem_of_app, list_elem_of_singleton, Hlink.
      destruct (decide (x = sid)) as [->|Hx].
      * rewrite lookup_insert_eq. intuition congruence.
      * rewrite lookup_insert_ne by done. intuition congruence.
    + rewrite sockets_of_addConnection_other by done. rewrite Hlink.
      destruct (decide (x = sid)) as [->|Hx].
      * rewrite lookup_insert_eq, Hfresh. intuition congruence.
      * by rewrite lookup_insert_ne.
  - intros x v. unfold addConnection. simpl.
    intros [[_ <-]|[_ Hx]]%lookup_insert_Some; [done|by eapply Htruthy].
  - intros x. unfold addConnection. simpl.
    destruct (decide (x = sid)) as [->|Hx].
    + rewrite !lookup_insert_eq. by split.
    + rewrite !lookup_insert_ne by done. apply Hrooms.
Qed.

Lemma addRoom_consistent (sid room : string) (m : UserConnectionManager) :
  registry_consistent m →
  is_Some (socketUsers m !! sid) →
  registry_consistent (addRoom sid room m).
Proof.
  intros (Hsets & Hlink & Htruthy & Hrooms) Hreg.
  split_and!; [exact Hsets|exact Hlink|exact Htruthy|].
  intros x. unfold addRoom. simpl. rewrite <- Hrooms.
  destruct (decide (x = sid)) as [->|Hx].
  - rewrite lookup_alter_eq.
    apply Hrooms in Hreg as [set Hset]. rewrite Hset. simpl. rewrite Hset. simpl.
    split; eauto.
  - rewrite lookup_alter_ne by done.
    destruct (socketRooms m !! sid); [done|].
    by rewrite lookup_insert_ne.
Qed.

Lemma removeConnection_consistent (sid : string) (m : UserConnectionManager) :
  registry_consistent m → registry_consistent (removeConnection sid m).
Proof.
  intros Hm. pose proof Hm as (Hsets & Hlink & Htruthy & Hrooms).
  destruct (socketUsers m !! sid) as [u|] eqn:Hsid.
  2:{ rewrite removeConnection_unregistered; [done..|].
      destruct (socketRooms m !! sid) eqn:Hr; [|done].
      assert (is_Some (socketUsers m !! sid)) as [? ?] by (apply Hrooms; eauto).
      congruence. }
  pose proof (Htruthy _ _ Hsid) as Hu.
  assert (Hsu : socketUsers (removeConnection sid m) = delete sid (socketUsers m)) by done.
  assert (Hsr : socketRooms (removeConnection sid m) = delete sid (socketRooms m)) by done.
  split_and!.
  - intros v set Hv.
    assert (Hset : sockets_of v (removeConnection sid m) = set)
      by (unfold sockets_of; by rewrite Hv).
    rewrite (sockets_of_removeConnection u) in Hset by done.
    destruct (decide (v = u)) as [->|Hne].
    + split.
      * intros ->. revert Hv. unfold removeConnection. simpl. rewrite Hsid, Hu.
        destruct (userSockets m !! u) as [set0|] eqn:Hset0.
        -- unfold sockets_of in Hset. rewrite Hset0 in Hset. simpl in Hset.
           rewrite Hset. simpl. by rewrite lookup_delete_eq.
        -- rewrite Hset0. done.
      * subst set. unfold JsSet.delete. apply NoDup_filter.
        unfold sockets_of. destruct (userSockets m !! u) as [set0|] eqn:Hset0; simpl.
        -- by apply (Hsets u).
        -- apply NoDup_nil_2.
    + apply (Hsets v). revert Hv. unfold removeConnection. simpl. rewrite Hsid, Hu.
      destruct (userSockets m !! u) as [set0|]; [|done].
      destruct (Nat.eqb _ _).
      * by rewrite lookup_delete_ne.
      * by rewrite lookup_insert_ne.
  - intros v x. rewrite (sockets_of_removeConnection u) by done. rewrite Hsu.
    destruct (decide (v = u)) as [->|Hne].
    + unfold JsSet.delete. rewrite list_elem_of_filter, Hlink.
      destruct (decide (x = sid)) as [->|Hx].
      * rewrite lookup_delete_eq. intuition congruence.
      * rewrite lookup_delete_ne by done. intuition congruence.
    + rewrite Hlink. destruct (decide (x = sid)) as [->|Hx].
      * rewrite lookup_delete_eq, Hsid. intuition congruence.
      * by rewrite lookup_delete_ne.
  - intros x v. rewrite Hsu. intros [_ Hx]%lookup_delete_Some. by eapply Htruthy.
  - intros x. rewrite Hsu, Hsr. destruct (decide (x = sid)) as [->|Hx].
    + rewrite !lookup_delete_eq. split; intros [? ?]; done.
    + rewrite !lookup_delete_ne by done. apply Hrooms.
Qed.

(** The registry stays consistent along every run of operations that
    starts from the empty registry and uses it as the handlers do: no user
    keeps an empty set, no set lists a socket twice, a socket is listed
    under exactly the user it is filed under (hence under at most one), and
    room sets exist for registered sockets only. *)
Theorem registry_consistent_run (ops : list registry_op) :
  ops_ok ops newManager →
  let m := run_ops ops newManager in
  registry_consistent m
  ∧ ∀ u v sid, sid ∈ sockets_of u m → sid ∈ sockets_of v m → u = v.
Proof.
  intros Hok.
  assert (Hrun : ∀ m, registry_consistent m → ops_ok ops m →
                      registry_consistent (run_ops ops m)).
  { clear Hok. induction ops as [|op ops IH]; intros m Hm Hok; [done|].
    destruct Hok as [Hop Hok]. simpl. apply IH; [|done].
    destruct op as [u sid|sid room|sid]; simpl in *.
    - destruct Hop. by apply addConnection_consistent.
    - by apply addRoom_consistent.
    - by apply removeConnection_consistent. }
  pose proof (Hrun newManager newManager_consistent Hok) as Hm.
  simpl. split; [done|].
  destruct Hm as (_ & Hlink & _). intros u v sid Hu%Hlink Hv%Hlink. congruence.
Qed.

Lemma registry_consistent_run_witness :
  let m := run_ops [OpAddConnection "alice" "s1"; OpAddRoom "s1" "project_p1";
                    OpAddConnection "alice" "s2"; OpRemoveConnection "s1"] newManager in
  registry_consistent m
  ∧ ∀ u v sid, sid ∈ sockets_of u m → sid ∈ sockets_of v m → u = v.
Proof.
  apply (registry_consistent_run
           [OpAddConnection "alice" "s1"; OpAddRoom "s1" "project_p1";
            OpAddConnection "alice" "s2"; OpRemoveConnection "s1"]).
  simpl. split_and!; try done; vm_compute; eauto.
Defined.

Lemma JsSet_delete_app_fresh (x : string) (s : JsSet.t) :
  x ∉ s → JsSet.delete x (s ++ [x]) = s.
Proof.
  intros Hx. unfold JsSet.delete. rewrite filter_app.
  rewrite filter_cons_False by (intros Hne; by apply Hne).
  rewrite filter_nil, app_nil_r.
  induction s as [|y s IH]; [done|].
  apply not_elem_of_cons in Hx as [Hne Hx].
  rewrite filter_cons_True by done. by rewrite IH.
Qed.

(** Registering a connection under a fresh socket id and removing it again
    gives back the registry as it was, the user's key included: the key is
    dropped again if the user had no other connection. *)
Theorem removeConnection_addConnection (u sid : string) (m : UserConnectionManager) :
  registry_consistent m →
  truthy u = true →
  socketUsers m !! sid = None →
  removeConnection sid (addConnection u sid m) = m.
Proof.
  intros (Hsets & Hlink & _ & Hrooms) Hu Hfresh.
  assert (Hnotin : sid ∉ sockets_of u m).
  { intros Hin. apply Hlink in Hin. congruence. }
  assert (Hroom : socketRooms m !! sid = None).
  { destruct (socketRooms m !! sid) eqn:Hr; [|done].
    assert (is_Some (socketUsers m !! sid)) as [? ?] by (apply Hrooms; eauto).
    congruence. }
  unfold sockets_of in Hnotin. unfold removeConnection.
  assert (Hsu : socketUsers (addConnection u sid m) = <[sid := u]> (socketUsers m)) by done.
  assert (Hsr : socketRooms (addConnection u sid m) = <[sid := JsSet.empty]> (socketRooms m))
    by done.
  rewrite Hsu, Hsr, lookup_insert_eq, Hu, !delete_insert_eq.
  rewrite (delete_id (socketUsers m)), (delete_id (socketRooms m)) by done.
  destruct m as [us su sr]. unfold addConnection. simpl in *. f_equal.
  destruct (us !! u) as [set0|] eqn:Hset0; simpl in *.
  - rewrite lookup_alter_eq, Hset0. simpl.
    rewrite JsSet_add_fresh, JsSet_delete_app_fresh by done.
    destruct (Hsets u set0 Hset0) as [Hne _].
    destruct (Nat.eqb_spec (JsSet.size set0) 0) as [Hz|_].
    { apply length_zero_iff_nil in Hz. done. }
    apply map_eq. intros v. destruct (decide (v = u)) as [->|Hv].
    + by rewrite lookup_insert_eq.
    + by rewrite lookup_insert_ne, lookup_alter_ne.
  - rewrite lookup_alter_eq, lookup_insert_eq. simpl.
    rewrite JsSet_add_fresh, JsSet_delete_app_fresh by done. simpl.
    apply map_eq. intros v. destruct (decide (v = u)) as [->|Hv].
    + by rewrite lookup_delete_eq.
    + by rewrite lookup_delete_ne, lookup_alter_ne, lookup_insert_ne.
Qed.

Lemma demo_manager_consistent : registry_consistent demo_manager.
Proof.
  unfold demo_manager.
  repeat (apply addRoom_consistent; [|vm_compute; eauto]).
  repeat (apply addConnection_consistent; [|done|done]).
  apply newManager_consistent.
Qed.

Lemma removeConnection_addConnection_witness :
  removeConnection "s9" (addConnection "carol" "s9" demo_manager) = demo_manager
  ∧ removeConnection "s9" (addConnection "alice" "s9" demo_manager) = demo_manager.
Proof.
  split; apply removeConnection_addConnection;
    done || apply demo_manager_consistent.
Defined.

(** Removing a connection twice is the same as removing it once: the
    second call finds nothing under the socket id and changes nothing. *)
Theorem removeConnection_idempotent (sid : string) (m : UserConnectionManager) :
  removeConnection sid (removeConnection sid m) = removeConnection sid m.
Proof.
  apply removeConnection_unregistered; unfold removeConnection; simpl;
    apply lookup_delete_eq.
Qed.

(** ** Registry diagnostics *)

Lemma room_sum_comm (z1 z2 : JsSet.t) (y : nat) :
  y + JsSet.size z2 + JsSet.size z1 = y + JsSet.size z1 + JsSet.size z2.
Proof. lia. Qed.

Lemma totalRooms_insert (sid : string) (set : JsSet.t) (sr : gmap string JsSet.t) :
  map_fold (λ _ rooms sum, sum + JsSet.size rooms) 0 (<[sid := set]> sr)
    + JsSet.size (default JsSet.empty (sr !! sid))
  = map_fold (λ _ rooms sum, sum + JsSet.size rooms) 0 sr + JsSet.size set.
Proof.
  destruct (sr !! sid) as [old|] eqn:Hold; simpl.
  - rewrite <- insert_delete_eq.
    rewrite map_fold_insert_L; [|intros; apply room_sum_comm|apply lookup_delete_eq].
    rewrite (map_fold_delete_L _ _ sid old sr); [|intros; apply room_sum_comm|done].
    lia.
  - rewrite map_fold_insert_L; [|intros; apply room_sum_comm|done]. lia.
Qed.

Lemma totalRooms_delete (sid : string) (sr : gmap string JsSet.t) :
  map_fold (λ _ rooms sum, sum + JsSet.size rooms) 0 (delete sid sr)
    + JsSet.size (default JsSet.empty (sr !! sid))
  = map_fold (λ _ rooms sum, sum + JsSet.size rooms) 0 sr.
Proof.
  destruct (sr !! sid) as [old|] eqn:Hold; simpl.
  - by rewrite (map_fold_delete_L _ _ sid old sr); [|intros; apply room_sum_comm|done].
  - rewrite delete_id by done. lia.
Qed.

(** [addRoom] counts a membership once: the room total grows by one when
    the room is new to the connection and stays put when the connection was
    already in it; the other two figures do not move. *)
Theorem getStats_addRoom (sid room : string) (m : UserConnectionManager) :
  getStats (addRoom sid room m)
  = {| totalConnections := totalConnections (getStats m);
       uniqueUsers := uniqueUsers (getStats m);
       totalRooms := totalRooms (getStats m)
                     + (if JsSet.has room (getRooms sid m) then 0 else 1) |}.
Proof.
  unfold getStats. simpl. f_equal.
  assert (Halter : alter (JsSet.add room) sid
                     match socketRooms m !! sid with
                     | Some _ => socketRooms m
                     | None => <[sid := JsSet.empty]> (socketRooms m)
                     end
                   = <[sid := JsSet.add room (getRooms sid m)]> (socketRooms m)).
  { unfold getRooms. apply map_eq. intros x.
    destruct (decide (x = sid)) as [->|Hx].
    - rewrite lookup_alter_eq, lookup_insert_eq.
      destruct (socketRooms m !! sid) as [set|] eqn:Hset; simpl.
      + by rewrite Hset.
      + by rewrite lookup_insert_eq.
    - rewrite lookup_alter_ne, lookup_insert_ne by done.
      destruct (socketRooms m !! sid); [done|]. by rewrite lookup_insert_ne. }
  rewrite Halter.
  pose proof (totalRooms_insert sid (JsSet.add room (getRooms sid m)) (socketRooms m))
    as Hsum.
  fold (getRooms sid m) in Hsum. unfold JsSet.add in *.
  destruct (JsSet.has room (getRooms sid m)).
  - lia.
  - unfold JsSet.size in *. rewrite length_app in Hsum. simpl in Hsum. lia.
Qed.

(** Removing a registered connection takes one off the connection total
    and the connection's rooms off the room total, and takes one off the
    user total exactly when it was the user's last connection. *)
Theorem getStats_removeConnection (sid u : string) (m : UserConnectionManager) :
  registry_consistent m →
  socketUsers m !! sid = Some u →
  let before := getStats m in
  let after := getStats (removeConnection sid m) in
  totalConnections before = S (totalConnections after)
  ∧ totalRooms before = totalRooms after + JsSet.size (getRooms sid m)
  ∧ uniqueUsers before
    = uniqueUsers after + (if Nat.eqb (getUserSocketCount u m) 1 then 1 else 0).
Proof.
  intros (Hsets & Hlink & Htruthy & _) Hsid. simpl.
  pose proof (Htruthy _ _ Hsid) as Hu.
  assert (Hin : sid ∈ sockets_of u m) by (by apply Hlink).
  split_and!.
  - rewrite map_size_delete, Hsid. simpl.
    assert (size (socketUsers m) ≠ 0); [|lia].
    intros Hz%map_size_empty_iff. by rewrite Hz, lookup_empty in Hsid.
  - pose proof (totalRooms_delete sid (socketRooms m)) as Hsum.
    unfold getRooms. lia.
  - rewrite Hsid, Hu. unfold getUserSocketCount. unfold sockets_of in Hin.
    destruct (userSockets m !! u) as [set|] eqn:Hset; simpl in Hin;
      [|by apply elem_of_nil in Hin].
    destruct (Hsets u set Hset) as [_ Hnd].
    pose proof (JsSet_delete_size sid set Hnd Hin) as Hsize.
    destruct (Nat.eqb_spec (JsSet.size (JsSet.delete sid set)) 0) as [Hz|Hnz].
    + rewrite Hz in Hsize. rewrite <- Hsize. simpl.
      rewrite map_size_delete, Hset. simpl.
      assert (size (userSockets m) ≠ 0); [|lia].
      intros Hz'%map_size_empty_iff. by rewrite Hz', lookup_empty in Hset.
    + rewrite map_size_insert_Some by eauto.
      destruct (Nat.eqb_spec (JsSet.size set) 1); lia.
Qed.

Lemma getStats_removeConnection_witness :
  let before := getStats demo_manager in
  let after := getStats (removeConnection "s2" demo_manager) in
  totalConnections before = S (totalConnections after)
  ∧ totalRooms before = totalRooms after + 2
  ∧ uniqueUsers before = uniqueUsers after + 0.
Proof.
  apply (getStats_removeConnection "s2" "alice" demo_manager).
  - apply demo_manager_consistent.
  - reflexivity.
Defined.

(** ** The handshake *)

Lemma authenticate_rejected_state (now : Z) (db : store) (cred : credential)
    (g g' : server) (reason : string) :
  authenticate now db cred g = (Rejected reason, g') →
  connectionManager g' = connectionManager g
  ∧ activeConnections g' = activeConnections g
  ∧ sockets g' = sockets g.
Proof.
  unfold authenticate.
  destruct cred as [| |id uid]; try by intros [= <- <-].
  destruct (js_or id uid) as [userId|]; [|by intros [= <- <-]].
  destruct (truthy userId); simpl; [|by intros [= <- <-]].
  destruct (resolve_user now db userId (userCache g)) as [[user|] cache];
    [|by intros [= <- <-]].
  case_bool_decide; [|done]. by intros [= <- <-].
Qed.

Lemma authenticate_rejected_reason (now : Z) (db : store) (cred : credential)
    (g g' : server) (reason : string) :
  authenticate now db cred g = (Rejected reason, g') →
  reason ∈ handshake_reasons.
Proof.
  unfold authenticate, handshake_reasons.
  destruct cred as [| |id uid]; try (intros [= <- <-]; set_solver).
  destruct (js_or id uid) as [userId|]; [|intros [= <- <-]; set_solver].
  destruct (truthy userId); simpl; [|intros [= <- <-]; set_solver].
  destruct (resolve_user now db userId (userCache g)) as [[user|] cache];
    [|intros [= <- <-]; set_solver].
  case_bool_decide; [|done]. intros [= <- <-]. set_solver.
Qed.

(** A refused handshake leaves the registry, the provisional counter and
    the socket table as they were, and its reason is one of five fixed
    strings. *)
Theorem authenticate_rejected_frame (now : Z) (db : store) (cred : credential)
    (g g' : server) (reason : string) :
  authenticate now db cred g = (Rejected reason, g') →
  connectionManager g' = connectionManager g
  ∧ activeConnections g' = activeConnections g
  ∧ sockets g' = sockets g
  ∧ reason ∈ handshake_reasons.
Proof.
  intros Hauth.
  destruct (authenticate_rejected_state _ _ _ _ _ _ Hauth) as (Hm & Hac & Hs).
  split_and!; try done. by eapply authenticate_rejected_reason.
Qed.

Lemma authenticate_rejected_frame_witness :
  connectionManager (authenticate 0 demo_store (Signed None (Some "zed")) demo_server).2
    = connectionManager demo_server
  ∧ activeConnections (authenticate 0 demo_store (Signed None (Some "zed")) demo_server).2
    = activeConnections demo_server
  ∧ sockets (authenticate 0 demo_store (Signed None (Some "zed")) demo_server).2
    = sockets demo_server
  ∧ "Invalid authentication token" ∈ handshake_reasons.
Proof.
  apply (authenticate_rejected_frame 0 demo_store (Signed None (Some "zed")) demo_server).
  reflexivity.
Defined.

(** Within the five-minute freshness window the cached profile decides the
    handshake and the store is not consulted: the outcome is the same on
    any store, a failing one included. *)
Theorem authenticate_fresh_cache (now : Z) (db db' : store) (id uid : option string)
    (u : string) (cu : cached_user) (g : server) :
  js_or id uid = Some u →
  truthy u = true →
  userCache g !! u = Some cu →
  (now - cachedAt cu ≤ USER_CACHE_TTL)%Z →
  authenticate now db (Signed id uid) g = authenticate now db' (Signed id uid) g
  ∧ userCache (authenticate now db (Signed id uid) g).2 = userCache g
  ∧ ∀ user, (authenticate now db (Signed id uid) g).1 = Accepted user →
            user = cu_profile cu.
Proof.
  intros Hid Hu Hcu Hfresh. unfold authenticate, resolve_user.
  rewrite Hid, Hu, Hcu. simpl.
  rewrite bool_decide_eq_false_2 by lia.
  split; [done|]. case_bool_decide; simpl; split; try done.
  by intros user [= <-].
Qed.

(** Past the freshness window the cached profile is not used: when the
    store does not return exactly the user's row the handshake is refused,
    although the profile is still in the cache. *)
Theorem authenticate_stale_cache (now : Z) (db : store) (id uid : option string)
    (u : string) (cu : cached_user) (g : server) :
  js_or id uid = Some u →
  truthy u = true →
  userCache g !! u = Some cu →
  (now - cachedAt cu > USER_CACHE_TTL)%Z →
  single db (filter (λ p, user_id p = u) (users db)) = Error →
  (authenticate now db (Signed id uid) g).1 = Rejected "Invalid authentication token".
Proof.
  intros Hid Hu Hcu Hstale Hstore. unfold authenticate, resolve_user.
  rewrite Hid, Hu, Hcu, Hstore. simpl.
  by rewrite bool_decide_eq_true_2 by lia.
Qed.

Lemma authenticate_fresh_cache_witness :
  authenticate 300000 demo_store (Signed (Some "alice") None) cached_server
  = authenticate 300000 down_store (Signed (Some "alice") None) cached_server
  ∧ (authenticate 300000 down_store (Signed (Some "alice") None) cached_server).1
    = Accepted (demo_profile "alice").
Proof.
  destruct (authenticate_fresh_cache 300000 demo_store down_store (Some "alice") None
              "alice" {| cu_profile := demo_profile "alice"; cachedAt := 1000 |}
              cached_server eq_refl eq_refl eq_refl) as (Hsame & _ & _).
  - unfold USER_CACHE_TTL. simpl. lia.
  - split; [exact Hsame|reflexivity].
Defined.

Lemma authenticate_stale_cache_witness :
  (authenticate 400000 down_store (Signed (Some "alice") None) cached_server).1
  = Rejected "Invalid authentication token".
Proof.
  apply (authenticate_stale_cache 400000 down_store (Some "alice") None "alice"
           {| cu_profile := demo_profile "alice"; cachedAt := 1000 |} cached_server);
    reflexivity.
Defined.

(** ** The provisional counter *)

Lemma getUserSocketCount_addConnection_other (u v sid : string)
    (m : UserConnectionManager) :
  v ≠ u → getUserSocketCount v (addConnection u sid m) = getUserSocketCount v m.
Proof.
  intros Hne. rewrite !getUserSocketCount_sockets_of.
  by rewrite sockets_of_addConnection_other.
Qed.

Lemma counter_agrees_connect (now : Z) (db : store) (cred : credential) (sid : string)
    (g : server) :
  registry_consistent (connectionManager g) →
  counter_agrees g →
  socketUsers (connectionManager g) !! sid = None →
  counter_agrees (connect now db cred sid g).2.
Proof.
  intros (_ & Hlink & _) Hagree Hfresh. unfold connect.
  destruct (authenticate now db cred g) as [[user|reason] g1] eqn:Hauth.
  2:{ apply authenticate_rejected_state in Hauth as (Hm & Hac & _).
      intros u. simpl. rewrite Hm, Hac. apply Hagree. }
  assert (Hg1 : connectionManager g1 = connectionManager g
                ∧ activeConnections g1
                  = <[user_id user :=
                        (Z.of_nat (getUserSocketCount (user_id user) (connectionManager g)) + 1)%Z]>
                      (activeConnections g)).
  { revert Hauth. unfold authenticate.
    destruct cred as [| |id uid]; try done.
    destruct (js_or id uid) as [userId|]; [|done].
    destruct (truthy userId); [|done]. simpl.
    destruct (resolve_user now db userId (userCache g)) as [[user'|] cache]; [|done].
    case_bool_decide; [done|]. by intros [= <- <-]. }
  destruct Hg1 as [Hm Hac]. intros v. simpl. rewrite Hm, Hac.
  destruct (decide (v = user_id user)) as [->|Hv].
  - rewrite lookup_insert_eq.
    rewrite !getUserSocketCount_sockets_of, addConnection_sockets_of, length_app.
    + simpl. rewrite Nat.add_1_r. simpl. f_equal. lia.
    + intros Hin%Hlink. congruence.
  - rewrite lookup_insert_ne by done.
    rewrite getUserSocketCount_addConnection_other by done. apply Hagree.
Qed.

Lemma counter_agrees_disconnect (s : socket) (c : connection) (g : server) :
  registry_consistent (connectionManager g) →
  counter_agrees g →
  socketUsers (connectionManager g) !! sock_id s = Some (sock_userId s) →
  counter_agrees (disconnect s c g).1.2.
Proof.
  intros Hm Hagree Hsid. pose proof Hm as (Hsets & Hlink & Htruthy & _).
  pose proof (Htruthy _ _ Hsid) as Hu.
  assert (Hin : sock_id s ∈ sockets_of (sock_userId s) (connectionManager g))
    by (by apply Hlink).
  pose proof (removeConnection_count (sock_id s) (sock_userId s) (connectionManager g))
    as Hcount.
  assert (Hwf : manager_wf (connectionManager g)).
  { intros u set Hset. by apply (Hsets u). }
  specialize (Hcount Hwf Hu Hsid Hin).
  intros v. simpl. unfold release_slot. rewrite Hu.
  destruct (decide (v = sock_userId s)) as [->|Hv].
  - rewrite (Hagree (sock_userId s)), <- Hcount. simpl.
    set (n := getUserSocketCount _ (removeConnection _ _)).
    case_bool_decide as Hz.
    + rewrite lookup_delete_eq. destruct n; [done|lia].
    + rewrite lookup_insert_eq. destruct n; [lia|]. simpl. f_equal. lia.
  - assert (Hsame : getUserSocketCount v (removeConnection (sock_id s) (connectionManager g))
                    = getUserSocketCount v (connectionManager g)).
    { rewrite !getUserSocketCount_sockets_of.
      rewrite (sockets_of_removeConnection (sock_userId s)) by done.
      by rewrite decide_False. }
    rewrite Hsame, <- Hagree.
    case_bool_decide; [by rewrite lookup_delete_ne|by rewrite lookup_insert_ne].
Qed.

(** The provisional counter does not drift from the registry: if each
    user's counter is the registry's count for that user, it still is after
    a connection attempt under a fresh socket id, accepted or refused, and
    after the disconnect of a registered socket. *)
Theorem counter_tracks_registry (g : server) :
  registry_consistent (connectionManager g) →
  counter_agrees g →
  (∀ now db cred sid,
     socketUsers (connectionManager g) !! sid = None →
     counter_agrees (connect now db cred sid g).2)
  ∧ (∀ s c,
       socketUsers (connectionManager g) !! sock_id s = Some (sock_userId s) →
       counter_agrees (disconnect s c g).1.2).
Proof.
  intros Hm Hagree. split.
  - intros. by apply counter_agrees_connect.
  - intros. by apply counter_agrees_disconnect.
Qed.

Lemma counter_tracks_registry_witness :
  let g1 := (connect 0 demo_store (Signed (Some "alice") None) "c0" newServer).2 in
  let g2 := (disconnect (demo_socket "c0" "alice" ["c0"]) newConnection g1).1.2 in
  counter_agrees g1
  ∧ counter_agrees g2
  ∧ activeConnections g1 !! "alice" = Some 1%Z
  ∧ activeConnections g2 !! "alice" = None.
Proof.
  assert (Hagree0 : counter_agrees newServer).
  { intros u. unfold newServer, getUserSocketCount. simpl. by rewrite !lookup_empty. }
  pose proof (proj1 (counter_tracks_registry newServer newManager_consistent Hagree0)
                0%Z demo_store (Signed (Some "alice") None) "c0" eq_refl) as Hagree1.
  assert (Hcons1 : registry_consistent
                     (connectionManager
                        (connect 0 demo_store (Signed (Some "alice") None) "c0" newServer).2)).
  { change (registry_consistent (addConnection "alice" "c0" newManager)).
    apply addConnection_consistent; [apply newManager_consistent|done|done]. }
  pose proof (proj2 (counter_tracks_registry _ Hcons1 Hagree1)
                (demo_socket "c0" "alice" ["c0"]) newConnection eq_refl) as Hagree2.
  split; [exact Hagree1|]. split; [exact Hagree2|]. split; reflexivity.
Defined.

(** ** The stale-counter sweep *)

Lemma JsSet_elem_of_add (x y : string) (s : JsSet.t) :
  x ∈ JsSet.add y s ↔ x = y ∨ x ∈ s.
Proof.
  unfold JsSet.add, JsSet.has. case_bool_decide as Hy.
  - split; [by right|]. intros [->|?]; done.
  - rewrite elem_of_app, list_elem_of_singleton. tauto.
Qed.

Lemma elem_of_connectedUserIds (u : string) (g : server) :
  u ∈ connectedUserIds g
  ↔ truthy u = true ∧ ∃ s, s ∈ sockets g ∧ sock_userId s = u.
Proof.
  unfold connectedUserIds.
  assert (Hgen : ∀ l acc,
    u ∈ foldl (λ set s, if truthy (sock_userId s) then JsSet.add (sock_userId s) set
                        else set) acc l
    ↔ u ∈ acc ∨ (truthy u = true ∧ ∃ s, s ∈ l ∧ sock_userId s = u)).
  { induction l as [|s l IH]; intros acc; simpl.
    - split; [by left|]. intros [?|(_ & s & Hs & _)]; [done|].
      by apply elem_of_nil in Hs.
    - rewrite IH. destruct (truthy (sock_userId s)) eqn:Hs.
      + rewrite JsSet_elem_of_add. split.
        * intros [[->|?]|(Hu & s' & Hin & Heq)].
          -- right. split; [done|]. exists s. split; [left|done].
          -- by left.
          -- right. split; [done|]. exists s'. split; [by right|done].
        * intros [?|(Hu & s' & Hin & Heq)]; [by left; right|].
          apply elem_of_cons in Hin as [->|Hin].
          -- left. by left.
          -- right. split; [done|]. by exists s'.
      + split.
        * intros [?|(Hu & s' & Hin & Heq)]; [by left|].
          right. split; [done|]. exists s'. split; [by right|done].
        * intros [?|(Hu & s' & Hin & Heq)]; [by left|].
          apply elem_of_cons in Hin as [->|Hin]; [congruence|].
          right. split; [done|]. by exists s'. }
  rewrite Hgen. split; [|by right].
  intros [Hnil|?]; [by apply elem_of_nil in Hnil|done].
Qed.

(** The sweep keeps the counter of every user who has a live socket,
    leaves no counter for anyone else, and a second sweep right after finds
    nothing to remove. *)
Theorem cleanupStaleConnections_keeps_connected (g : server) :
  let g' := (cleanupStaleConnections g).1 in
  (∀ u s, s ∈ sockets g → sock_userId s = u → truthy u = true →
          activeConnections g' !! u = activeConnections g !! u)
  ∧ (∀ u n, activeConnections g' !! u = Some n →
            activeConnections g !! u = Some n
            ∧ ∃ s, s ∈ sockets g ∧ sock_userId s = u)
  ∧ connectionManager g' = connectionManager g
  ∧ cleanupStaleConnections g' = (g', 0).
Proof.
  simpl. split_and!.
  - intros u s Hs Hu Ht.
    assert (Hin : u ∈ connectedUserIds g).
    { apply elem_of_connectedUserIds. split; [done|]. by exists s. }
    destruct (activeConnections g !! u) as [n|] eqn:Hn.
    + apply map_lookup_filter_Some. by split.
    + apply map_lookup_filter_None. by left.
  - intros u n [Hn Hin]%map_lookup_filter_Some. split; [done|].
    simpl in Hin. by apply elem_of_connectedUserIds in Hin as [_ ?].
  - done.
  - unfold cleanupStaleConnections. simpl.
    change (connectedUserIds _) with (connectedUserIds g).
    assert (Hsame : filter (λ kv : string * Z, kv.1 ∈ connectedUserIds g)
                      (filter (λ kv : string * Z, kv.1 ∈ connectedUserIds g)
                         (activeConnections g))
                    = filter (λ kv : string * Z, kv.1 ∈ connectedUserIds g)
                        (activeConnections g)).
    { apply map_eq. intros u. apply option_eq. intros n.
      rewrite !map_lookup_filter_Some. tauto. }
    rewrite Hsame, Nat.sub_diag. done.
Qed.

Lemma cleanupStaleConnections_keeps_connected_witness :
  activeConnections (cleanupStaleConnections stale_server).1 !! "alice" = Some 2%Z
  ∧ activeConnections (cleanupStaleConnections stale_server).1 !! "zed" = None
  ∧ (cleanupStaleConnections stale_server).2 = 1.
Proof.
  destruct (cleanupStaleConnections_keeps_connected stale_server) as (Hkeep & _).
  split; [|split; reflexivity].
  rewrite (Hkeep "alice" (demo_socket "s1" "alice" [])); [reflexivity| |done|done].
  simpl. left.
Defined.

(** ** The rate limiter over a whole run *)

Lemma recentMessages_app (now : Z) (l1 l2 : list Z) :
  recentMessages now (l1 ++ l2) = recentMessages now l1 ++ recentMessages now l2.
Proof. unfold recentMessages. apply filter_app. Qed.

Lemma recentMessages_length_mono (now later : Z) (l : list Z) :
  (now ≤ later)%Z →
  length (recentMessages later l) ≤ length (recentMessages now l).
Proof.
  intros Hle. unfold recentMessages. induction l as [|t l IH]; [done|].
  destruct (decide (t > later - 60000)%Z) as [Ht|Ht].
  - rewrite !filter_cons_True by lia. simpl. lia.
  - rewrite (filter_cons_False (λ t0, (t0 > later - 60000)%Z)) by done.
    destruct (decide (t > now - 60000)%Z) as [Ht'|Ht'].
    + rewrite filter_cons_True by done. simpl. lia.
    + by rewrite filter_cons_False.
Qed.

Lemma last_minute_recent (now : Z) (l : list Z) :
  Forall (λ t, (t ≤ now)%Z) l →
  filter (in_last_minute now) l = recentMessages now l.
Proof.
  unfold recentMessages, in_last_minute.
  induction 1 as [|t l Ht Hl IH]; [done|].
  destruct (decide (t > now - 60000)%Z) as [Hr|Hr].
  - rewrite !filter_cons_True by lia. by rewrite IH.
  - rewrite !filter_cons_False by lia. done.
Qed.

Lemma limiter_inv_later (ts passed : list Z) (last now : Z) :
  (last ≤ now)%Z → limiter_inv ts passed last → limiter_inv ts passed now.
Proof.
  intros Hle (Hagree & Hpast & Hcap). split_and!.
  - intros later Hlater. apply Hagree. lia.
  - eapply Forall_impl; [exact Hpast|]. intros; simpl in *; lia.
  - done.
Qed.

Lemma limiter_inv_pass (ts passed : list Z) (now : Z) :
  limiter_inv ts passed now →
  rate_limited now ts = false →
  limiter_inv (record_send now ts) (passed ++ [now]) now.
Proof.
  intros (Hagree & Hpast & Hcap) Hpass.
  apply bool_decide_eq_false in Hpass.
  split_and!.
  - intros later Hlater. unfold record_send.
    rewrite recentMessages_shift_expired by lia.
    by rewrite !recentMessages_app, Hagree.
  - apply Forall_app. split; [done|]. apply Forall_singleton. lia.
  - intros n. rewrite filter_app, length_app.
    destruct (decide (in_last_minute n now)) as [Hin|Hout].
    + rewrite (filter_cons_True (in_last_minute n)) by done. simpl.
      unfold in_last_minute in Hin.
      rewrite last_minute_recent
        by (eapply Forall_impl; [exact Hpast|]; intros; simpl in *; lia).
      pose proof (recentMessages_length_mono now n passed ltac:(lia)) as Hmono.
      rewrite <- (Hagree now) in Hmono by lia.
      unfold MESSAGE_RATE_LIMIT in *. lia.
    + rewrite (filter_cons_False (in_last_minute n)) by done. simpl.
      specialize (Hcap n). lia.
Qed.

Lemma limiter_passes_inv (s : socket) (events : list (Z * option message_data))
    (c : connection) (db : store) (passed : list Z) (last : Z) :
  limiter_inv (messageTimestamps c) passed last →
  Forall (λ t, (last ≤ t)%Z) (events.*1) →
  nondecreasing (events.*1) →
  ∀ now, length (filter (in_last_minute now) (passed ++ limiter_passes s events c db))
         ≤ MESSAGE_RATE_LIMIT.
Proof.
  revert c db passed last.
  induction events as [|[t data] rest IH]; intros c db passed last Hinv Hlast Hmono.
  - simpl. rewrite app_nil_r. by destruct Hinv as (_ & _ & ?).
  - simpl in *. apply Forall_cons in Hlast as [Ht _]. destruct Hmono as [Hrest Hmono].
    pose proof (limiter_inv_later _ _ _ _ Ht Hinv) as Hnow.
    destruct (rate_limited t (messageTimestamps c)) eqn:Hlim.
    + rewrite send_message_limited by done. simpl.
      by apply (IH c db passed t).
    + pose proof (send_message_records t s data c db Hlim) as Hrec.
      destruct (send_message t s data c db) as [[c1 db1] out]. simpl in Hrec.
      rewrite app_assoc. apply (IH c1 db1 (passed ++ [t]) t); [|done|done].
      rewrite Hrec. by apply limiter_inv_pass.
Qed.

(** With a clock that does not run backwards, the limiter of a fresh
    connection never lets more than ten sends through in any minute: of the
    sends that passed the check, at most ten carry a timestamp in
    [(now - 60000, now]], for every [now]. *)
Theorem limiter_never_exceeds (s : socket) (events : list (Z * option message_data))
    (db : store) (now : Z) :
  nondecreasing (events.*1) →
  length (filter (in_last_minute now) (limiter_passes s events newConnection db))
    ≤ MESSAGE_RATE_LIMIT.
Proof.
  intros Hmono.
  destruct events as [|[t data] rest] eqn:Hev; [simpl; lia|].
  rewrite <- Hev in *.
  apply (limiter_passes_inv s events newConnection db [] t).
  - split_and!; [done|done|]. intros n. simpl. lia.
  - subst events. simpl in *. constructor; [lia|]. by destruct Hmono.
  - done.
Qed.

Lemma limiter_never_exceeds_witness :
  limiter_passes alice twelve_sends newConnection demo_store
  = [0; 1; 2; 3; 4; 5; 6; 7; 8; 9; 60000]%Z
  ∧ length (filter (in_last_minute 60000)
              (limiter_passes alice twelve_sends newConnection demo_store))
    ≤ MESSAGE_RATE_LIMIT.
Proof.
  split; [reflexivity|].
  apply (limiter_never_exceeds alice twelve_sends demo_store 60000).
  unfold twelve_sends. simpl. repeat split; repeat constructor; lia.
Defined.









(** ** The relays: every outcome *)

(** Solves membership of a literal in a literal list. *)
Ltac among := repeat (first [by left | right]).

(** [send_message] ends in one of two ways.  Either it emits a single
    error event, to the sender alone and with one of five fixed messages,
    and the store is untouched; or it appends one row, filed under the
    socket's own user id, to [chat_messages], touches no other table, and
    emits [new_message] to the room without the sender followed by
    [message_sent] to the sender. *)
Theorem send_message_outcomes (now : Z) (s : socket) (data : option message_data)
    (c : connection) (db : store) :
  let '(_, db', out) := send_message now s data c db in
  (db' = db ∧ ∃ msg, msg ∈ send_message_errors ∧ out = [error_event msg])
  ∨ (∃ row reply roomId projectId,
       chat_messages db' = chat_messages db ++ [row]
       ∧ cm_user_id row = sock_userId s
       ∧ cm_room_id row = roomId
       ∧ friend_messages db' = friend_messages db
       ∧ chat_rooms db' = chat_rooms db
       ∧ project_members db' = project_members db
       ∧ users db' = users db
       ∧ user_friendships db' = user_friendships db
       ∧ healthy db' = healthy db
       ∧ out = [Emit (ToRoomExceptSender ("room_" +:+ roomId)) "new_message"
                  (PNewMessage {| pm_message := row; pm_reply_to := reply |}
                     roomId projectId);
                Emit ToSender "message_sent"
                  (PMessageSent {| pm_message := row; pm_reply_to := reply |} roomId)]).
Proof.
  unfold send_message, send_message_errors.
  destruct (rate_limited now (messageTimestamps c)).
  { left. split; [done|]. eexists. split; [|done]. among. }
  destruct data as [d|].
  2:{ left. split; [done|]. eexists. split; [|done]. among. }
  destruct (md_roomId d) as [roomId|], (md_content d) as [content|],
    (md_projectId d) as [projectId|];
    try (left; split; [done|]; eexists; split; [|done]; among).
  destruct (_ || _).
  { left. split; [done|]. eexists. split; [|done]. among. }
  destruct (single db (filter _ (chat_rooms db))) as [room|].
  2:{ left. split; [done|]. eexists. split; [|done]. among. }
  destruct (single db (filter _ (project_members db))) as [member|].
  2:{ left. split; [done|]. eexists. split; [|done]. among. }
  unfold insert_chat_message. destruct (healthy db).
  - right. eexists _, _, _, _. by split_and!.
  - left. split; [done|]. eexists. split; [|done]. among.
Qed.

(** [send_friend_message] ends in one of two ways.  Either it emits a
    single error event, to the sender alone and with one of three fixed
    messages, and the store is untouched; or the payload names a recipient
    and carries content, the store gains exactly one row of
    [friend_messages], from the socket's own user id to that recipient and
    with the content trimmed and non-empty, every other table is as it was,
    and the handler emits [friend_message] to the recipient's mailbox room
    followed by [friend_message_sent] to the sender. *)
Theorem send_friend_message_outcomes (s : socket) (data : option friend_data) (db : store) :
  let '(db', out) := send_friend_message s data db in
  (db' = db ∧ ∃ msg, msg ∈ send_friend_message_errors ∧ out = [error_event msg])
  ∨ (∃ d recipientId content,
       data = Some d
       ∧ fd_recipientId d = Some recipientId
       ∧ fd_content d = Some content
       ∧ trim content ≠ []
       ∧ let row := {| fm_id := S (length (friend_messages db));
                       fm_sender_id := sock_userId s;
                       fm_recipient_id := recipientId;
                       fm_content := trim content |} in
         db' = {| users := users db;
                  chat_rooms := chat_rooms db;
                  project_members := project_members db;
                  user_friendships := user_friendships db;
                  chat_messages := chat_messages db;
                  friend_messages := friend_messages db ++ [row];
                  healthy := healthy db |}
         ∧ out = [Emit (ToRoom ("user_" +:+ recipientId)) "friend_message"
                    (PFriendMessage (sock_userId s) row);
                  Emit ToSender "friend_message_sent" (PFriendMessageSent row)]).
Proof.
  unfold send_friend_message, send_friend_message_errors.
  destruct data as [d|].
  2:{ left. split; [done|]. eexists. split; [|done]. among. }
  destruct (fd_recipientId d) as [recipientId|] eqn:Hr,
    (fd_content d) as [content|] eqn:Hc;
    try (left; split; [done|]; eexists; split; [|done]; among).
  destruct (truthy recipientId); simpl.
  2:{ left. split; [done|]. eexists. split; [|done]. among. }
  destruct (nonblank content) eqn:Hnb; simpl.
  2:{ left. split; [done|]. eexists. split; [|done]. among. }
  destruct (single db _) as [f|].
  2:{ left. split; [done|]. eexists. split; [|done]. among. }
  unfold insert_friend_message. destruct (healthy db) eqn:Hup.
  - right. exists d, recipientId, content. split_and!; try done.
    unfold nonblank in Hnb. by destruct (trim content).
  - left. split; [done|]. eexists. split; [|done]. among.
Qed.

(** ** Project rooms and presence *)

Lemma JsSet_elem_of_foldl_add (x : string) (rooms : list string) (set : JsSet.t) :
  x ∈ foldl (λ set room, JsSet.add room set) set rooms ↔ x ∈ set ∨ x ∈ rooms.
Proof.
  revert set. induction rooms as [|room rooms IH]; intros set; simpl.
  - split; [by left|]. intros [?|?%elem_of_nil]; done.
  - rewrite IH, JsSet_elem_of_add, elem_of_cons. tauto.
Qed.

Lemma JsSet_foldl_add_present (rooms : list string) (set : JsSet.t) :
  (∀ room, room ∈ rooms → room ∈ set) →
  foldl (λ set room, JsSet.add room set) set rooms = set.
Proof.
  induction rooms as [|room rooms IH]; intros Hin; [done|]. simpl.
  assert (Hadd : JsSet.add room set = set).
  { unfold JsSet.add, JsSet.has. rewrite bool_decide_eq_true_2; [done|].
    apply Hin. left. }
  rewrite Hadd. apply IH. intros r Hr. apply Hin. by right.
Qed.

(** A refused [join_project_rooms] joins nothing: when the membership
    lookup does not return exactly one row, the socket, the registry and the
    socket table are as before, the only emission is the error "Not a
    project member", and the answer to [get_online_users] is unchanged. *)
Theorem join_project_rooms_refused (s : socket) (projectId : string)
    (g : server) (db : store) :
  single db (filter (λ pm, pm_project_id pm = projectId ∧ pm_user_id pm = sock_userId s)
               (project_members db)) = Error →
  let '(s', g', out) := join_project_rooms s projectId g db in
  s' = s ∧ g' = g
  ∧ out = [error_event "Not a project member"]
  ∧ ∀ asker p, get_online_users asker p g' = get_online_users asker p g.
Proof. intros Hnone. unfold join_project_rooms. rewrite Hnone. done. Qed.

Lemma join_project_rooms_refused_witness :
  let bob := demo_socket "s3" "bob" ["project_p2"] in
  join_project_rooms bob "p1" demo_server demo_store
  = (bob, demo_server, [error_event "Not a project member"]).
Proof.
  pose proof (join_project_rooms_refused (demo_socket "s3" "bob" ["project_p2"]) "p1"
                demo_server demo_store eq_refl) as Hrefused.
  simpl. destruct (join_project_rooms _ _ _ _) as [[s' g'] out].
  destruct Hrefused as (-> & -> & -> & _). reflexivity.
Defined.

Lemma elem_of_update_socket (s s0 : socket) (g : server) :
  s0 ∈ sockets g → sock_id s0 = sock_id s → s ∈ sockets (update_socket s g).
Proof.
  intros Hin Hid. unfold update_socket. simpl.
  apply list_elem_of_fmap. exists s0. split; [|done].
  by rewrite bool_decide_eq_true_2.
Qed.

(** An accepted [join_project_rooms] puts the connection in the project
    room and in the rooms of that project's chat rooms, fifty at most, and
    in nothing else, in the socket's own room set and in the registry alike;
    it answers [rooms_joined]; and if the socket is in the live table under
    a non-empty user id, [get_online_users] for the project now lists it. *)
Theorem join_project_rooms_accepted (s : socket) (projectId : string)
    (g : server) (db : store) (member : project_member) :
  single db (filter (λ pm, pm_project_id pm = projectId ∧ pm_user_id pm = sock_userId s)
               (project_members db)) = Data member →
  let names := project_room_names projectId db in
  let '(s', g', out) := join_project_rooms s projectId g db in
  sock_rooms s' = foldl (λ set room, JsSet.add room set) (sock_rooms s) names
  ∧ getRooms (sock_id s) (connectionManager g')
    = foldl (λ set room, JsSet.add room set)
        (getRooms (sock_id s) (connectionManager g)) names
  ∧ length names ≤ 51
  ∧ events_named "rooms_joined" out = out ∧ length out = 1
  ∧ (truthy (sock_userId s) = true →
     (∃ s0, s0 ∈ sockets g ∧ sock_id s0 = sock_id s) →
     online_entry s ∈ onlineUsers projectId g').
Proof.
  intros Hmember. unfold join_project_rooms, rooms_of_project, project_room_names.
  rewrite Hmember, (single_Data_healthy _ _ _ Hmember).
  set (rooms := take 50 (filter _ (chat_rooms db))).
  set (names := ("project_" +:+ projectId) :: _).
  pose proof (join_all_getRooms names s (connectionManager g)) as Hreg.
  unfold join_all in *. simpl in *.
  split_and!; try done.
  - unfold names. simpl. rewrite length_fmap. unfold rooms. rewrite length_take. lia.
  - intros Hu (s0 & Hin & Hid).
    set (s1 := {| sock_id := sock_id s; sock_userId := sock_userId s;
                  sock_user := sock_user s; sock_rooms := _ |}).
    unfold onlineUsers. apply list_elem_of_fmap. exists s1. split; [done|].
    apply list_elem_of_filter. split.
    + unfold is_online_in, JsSet.has. simpl. rewrite Hu. simpl.
      apply bool_decide_eq_true_2.
      apply JsSet_elem_of_foldl_add. left. apply JsSet_elem_of_add. by left.
    + by apply (elem_of_update_socket s1 s0).
Qed.

Lemma join_project_rooms_accepted_witness :
  let s := demo_socket "s1" "alice" [] in
  let '(s', g', out) := join_project_rooms s "p1" demo_server demo_store in
  sock_rooms s' = ["project_p1"; "room_r1"]
  ∧ getRooms "s1" (connectionManager g') = ["project_p1"; "room_r1"]
  ∧ online_entry s ∈ onlineUsers "p1" g'.
Proof.
  pose proof (join_project_rooms_accepted (demo_socket "s1" "alice" []) "p1"
                demo_server demo_store
                {| pm_id := "m1"; pm_project_id := "p1"; pm_user_id := "alice" |}
                eq_refl) as Hjoin.
  cbv zeta in Hjoin |- *.
  destruct (join_project_rooms _ _ _ _) as [[s' g'] out].
  destruct Hjoin as (Hs & Hm & _ & _ & _ & Honline).
  split; [etrans; [exact Hs|reflexivity]|].
  split; [etrans; [exact Hm|reflexivity]|].
  apply Honline; [reflexivity|].
  exists (demo_socket "s1" "alice" []). split; [left|reflexivity].
Defined.

(** Joining the same project again changes no room set: the socket's
    rooms and the registry's rooms for the connection are what the first
    join left. *)
Theorem join_project_rooms_again (s : socket) (projectId : string)
    (g : server) (db : store) (member : project_member) :
  single db (filter (λ pm, pm_project_id pm = projectId ∧ pm_user_id pm = sock_userId s)
               (project_members db)) = Data member →
  let '(s1, g1, _) := join_project_rooms s projectId g db in
  let '(s2, g2, _) := join_project_rooms s1 projectId g1 db in
  sock_rooms s2 = sock_rooms s1
  ∧ getRooms (sock_id s) (connectionManager g2)
    = getRooms (sock_id s) (connectionManager g1).
Proof.
  intros Hmember.
  unfold join_project_rooms at 1. unfold rooms_of_project.
  rewrite Hmember, (single_Data_healthy _ _ _ Hmember).
  set (names := ("project_" +:+ projectId) :: _).
  pose proof (join_all_getRooms names s (connectionManager g)) as Hreg1.
  unfold join_all in *. cbn [fst snd] in Hreg1.
  set (s1 := {| sock_id := sock_id s; sock_userId := sock_userId s;
                sock_user := sock_user s; sock_rooms := _ |}).
  set (m1 := foldl _ (connectionManager g) names) in *.
  unfold join_project_rooms, rooms_of_project.
  change (sock_userId s1) with (sock_userId s).
  rewrite Hmember, (single_Data_healthy _ _ _ Hmember).
  fold names.
  pose proof (join_all_getRooms names s1 m1) as Hreg2.
  unfold join_all in *. cbn [fst snd] in Hreg2. cbn [sock_rooms].
  change (sock_id s1) with (sock_id s) in *.
  split.
  - change (sock_rooms {| sock_id := sock_id s; sock_userId := sock_userId s1;
                          sock_user := sock_user s1;
                          sock_rooms := foldl (λ set room, JsSet.add room set)
                                          (sock_rooms s1) names |})
      with (foldl (λ set room, JsSet.add room set) (sock_rooms s1) names).
    apply JsSet_foldl_add_present. intros room Hroom.
    apply JsSet_elem_of_foldl_add. by right.
  - unfold update_socket, with_manager. cbn [connectionManager].
    rewrite Hreg2. apply JsSet_foldl_add_present. intros room Hroom.
    rewrite Hreg1. apply JsSet_elem_of_foldl_add. by right.
Qed.

Lemma join_project_rooms_again_witness :
  let '(s1, g1, _) := join_project_rooms (demo_socket "s1" "alice" []) "p1"
                        demo_server demo_store in
  let '(s2, g2, _) := join_project_rooms s1 "p1" g1 demo_store in
  sock_rooms s1 = ["project_p1"; "room_r1"]
  ∧ sock_rooms s2 = sock_rooms s1
  ∧ getRooms "s1" (connectionManager g2) = getRooms "s1" (connectionManager g1).
Proof.
  pose proof (join_project_rooms_again (demo_socket "s1" "alice" []) "p1"
                demo_server demo_store
                {| pm_id := "m1"; pm_project_id := "p1"; pm_user_id := "alice" |}
                eq_refl) as Hagain.
  destruct (join_project_rooms (demo_socket "s1" "alice" []) "p1" demo_server demo_store)
    as [[s1 g1] out1] eqn:Hfirst.
  destruct (join_project_rooms s1 "p1" g1 demo_store) as [[s2 g2] out2].
  destruct Hagain as [Hs Hm].
  split; [|by split].
  by injection Hfirst as <- _ _.
Defined.

(** ** Typing: expiry, stop and the timer table *)

(** A [typing_start] that is followed by no other signal ends in exactly
    one timer-driven [user_stopped_typing]: when the armed timer comes due
    it emits the event once, the room is idle again, and the handle is
    spent. *)
Theorem typing_expires_once (now : Z) (s : socket) (d : typing_data) (c : connection) :
  let '(c1, _) := typing_start now s d c in
  let '(c2, out) := fire_timer (next_timer c) s c1 in
  out = [user_stopped_typing_event s (td_roomId d) (td_projectId d)]
  ∧ typingTimeouts c2 !! td_roomId d = None
  ∧ timers c2 !! next_timer c = None
  ∧ fire_timer (next_timer c) s c2 = (c2, []).
Proof.
  pose proof (typing_start_arms now s d c) as (Hroom & Htimer & _).
  destruct (typing_start now s d c) as [c1 out1]. cbn [fst] in *.
  unfold fire_timer at 1. rewrite Htimer.
  split; [done|]. cbn [typingTimeouts with_typingTimeouts timers clearTimeout].
  split; [apply lookup_delete_eq|].
  split; [apply lookup_delete_eq|].
  unfold fire_timer. cbn [timers with_typingTimeouts clearTimeout].
  by rewrite lookup_delete_eq.
Qed.

(** An explicit [typing_stop] after a [typing_start] for the same room
    emits [user_stopped_typing] at once and cancels the timer: the room is
    idle, and the cancelled handle emits nothing if it is ever run. *)
Theorem typing_stop_cancels (now : Z) (s : socket) (d d' : typing_data) (c : connection) :
  td_roomId d' = td_roomId d →
  let '(c1, _) := typing_start now s d c in
  let '(c2, out) := typing_stop s d' c1 in
  out = [user_stopped_typing_event s (td_roomId d') (td_projectId d')]
  ∧ typingTimeouts c2 !! td_roomId d = None
  ∧ timers c2 !! next_timer c = None
  ∧ fire_timer (next_timer c) s c2 = (c2, []).
Proof.
  intros Hsame.
  pose proof (typing_start_arms now s d c) as (Hroom & Htimer & _).
  destruct (typing_start now s d c) as [c1 out1]. cbn [fst] in *.
  unfold typing_stop. rewrite Hsame, Hroom.
  split; [done|]. cbn [typingTimeouts with_typingTimeouts timers clearTimeout].
  split; [apply lookup_delete_eq|].
  split; [apply lookup_delete_eq|].
  unfold fire_timer. cbn [timers with_typingTimeouts clearTimeout].
  by rewrite lookup_delete_eq.
Qed.

Lemma typing_stop_cancels_witness :
  let '(c1, _) := typing_start 0 alice typing_r1 newConnection in
  let '(c2, out) := typing_stop alice typing_r1 c1 in
  out = [user_stopped_typing_event alice "r1" "p1"]
  ∧ typingTimeouts c2 !! "r1" = None
  ∧ timers c2 !! 0 = None
  ∧ fire_timer 0 alice c2 = (c2, []).
Proof.
  apply (typing_stop_cancels 0 alice typing_r1 typing_r1 newConnection eq_refl).
Defined.

Lemma typing_start_tracked (now : Z) (s : socket) (d : typing_data) (c : connection) :
  timers_wf c → timers_tracked c → timers_tracked (typing_start now s d c).1.
Proof.
  intros Hwf Htr h due r p. unfold typing_start. simpl.
  destruct (typingTimeouts c !! td_roomId d) as [h0|] eqn:Hroom; simpl.
  - intros [[<- [= _ <- _]]|[Hne [Hh0 Hh]%lookup_delete_Some]]%lookup_insert_Some.
    + apply lookup_insert_eq.
    + pose proof (Htr _ _ _ _ Hh) as Hr.
      destruct (decide (r = td_roomId d)) as [->|Hrd]; [congruence|].
      by rewrite lookup_insert_ne.
  - intros [[<- [= _ <- _]]|[Hne Hh]]%lookup_insert_Some.
    + apply lookup_insert_eq.
    + pose proof (Htr _ _ _ _ Hh) as Hr.
      destruct (decide (r = td_roomId d)) as [->|Hrd]; [congruence|].
      by rewrite lookup_insert_ne.
Qed.

Lemma typing_stop_inv (s : socket) (d : typing_data) (c : connection) :
  timers_wf c → timers_tracked c →
  timers_wf (typing_stop s d c).1 ∧ timers_tracked (typing_stop s d c).1.
Proof.
  intros Hwf Htr. unfold typing_stop. simpl.
  destruct (typingTimeouts c !! td_roomId d) as [h0|] eqn:Hroom; [|done]. split.
  - intros h t. simpl. intros [_ Hh]%lookup_delete_Some. by eapply Hwf.
  - intros h due r p. simpl. intros [Hne Hh]%lookup_delete_Some.
    pose proof (Htr _ _ _ _ Hh) as Hr.
    destruct (decide (r = td_roomId d)) as [->|Hrd]; [congruence|].
    by rewrite lookup_delete_ne.
Qed.

Lemma fire_timer_inv (h0 : nat) (s : socket) (c : connection) :
  timers_wf c → timers_tracked c →
  timers_wf (fire_timer h0 s c).1 ∧ timers_tracked (fire_timer h0 s c).1.
Proof.
  intros Hwf Htr. unfold fire_timer.
  destruct (timers c !! h0) as [[due0 [r0 p0]]|] eqn:Hh0; [|done]. split.
  - intros h t. simpl. intros [_ Hh]%lookup_delete_Some. by eapply Hwf.
  - intros h due r p. simpl. intros [Hne Hh]%lookup_delete_Some.
    pose proof (Htr _ _ _ _ Hh) as Hr. pose proof (Htr _ _ _ _ Hh0) as Hr0.
    destruct (decide (r = r0)) as [->|Hrd]; [congruence|].
    by rewrite lookup_delete_ne.
Qed.

Lemma typing_run_inv (s : socket) (evs : list typing_event) (c : connection) :
  timers_wf c → timers_tracked c →
  timers_wf (typing_run s evs c).1 ∧ timers_tracked (typing_run s evs c).1.
Proof.
  revert c. induction evs as [|ev evs IH]; intros c Hwf Htr; [done|]. simpl.
  assert (Hstep : timers_wf (typing_step s ev c).1 ∧ timers_tracked (typing_step s ev c).1).
  { destruct ev as [now d|d|h].
    - split; [by apply (typing_start_wf now s d c)
             |by apply (typing_start_tracked now s d c)].
    - by apply (typing_stop_inv s d c).
    - by apply (fire_timer_inv h s c). }
  destruct (typing_step s ev c) as [c1 out]. destruct Hstep as [Hwf1 Htr1].
  specialize (IH c1 Hwf1 Htr1).
  by destruct (typing_run s evs c1) as [c2 outs].
Qed.

Lemma newConnection_typing_inv : timers_wf newConnection ∧ timers_tracked newConnection.
Proof. split; intros h *; simpl; by rewrite lookup_empty. Qed.

(** Whatever typing signals a connection receives and whichever of its
    timers come due, in any order, every pending timer is the one recorded
    for its room: a room never has two timers pending, so one typing episode
    can end in at most one timer-driven [user_stopped_typing]. *)
Theorem typing_one_timer_per_room (s : socket) (evs : list typing_event) :
  let c := (typing_run s evs newConnection).1 in
  timers_tracked c
  ∧ ∀ h1 h2 due1 due2 roomId p1 p2,
      timers c !! h1 = Some (due1, TypingExpiry roomId p1) →
      timers c !! h2 = Some (due2, TypingExpiry roomId p2) →
      h1 = h2.
Proof.
  destruct newConnection_typing_inv as [Hwf Htr].
  destruct (typing_run_inv s evs newConnection Hwf Htr) as [_ Htracked].
  simpl. split; [done|].
  intros h1 h2 due1 due2 r p1 p2 H1 H2.
  apply Htracked in H1. apply Htracked in H2. congruence.
Qed.

Lemma typing_one_timer_per_room_witness :
  let c := (typing_run alice [TypingStart 0 typing_r1; TypingStart 100 typing_r1;
                              TimerDue 0; TypingStart 200 typing_r1] newConnection).1 in
  timers c !! 2 = Some (5200%Z, TypingExpiry "r1" "p1")
  ∧ ∀ h due p, timers c !! h = Some (due, TypingExpiry "r1" p) → h = 2.
Proof.
  split; [reflexivity|]. intros h due p Hh.
  destruct (typing_one_timer_per_room alice
              [TypingStart 0 typing_r1; TypingStart 100 typing_r1;
               TimerDue 0; TypingStart 200 typing_r1]) as [_ Hone].
  exact (Hone h 2 due 5200%Z "r1" p "p1" Hh eq_refl).
Defined.

Lemma fold_delete_lookup (tt : gmap string nat) (init : gmap nat (Z * timer_callback))
    (k : nat) :
  ((∃ room, tt !! room = Some k) →
   map_fold (λ _ h t, delete h t) init tt !! k = None)
  ∧ (∀ v, map_fold (λ _ h t, delete h t) init tt !! k = Some v → init !! k = Some v).
Proof.
  apply (map_fold_weak_ind
           (λ r m, ((∃ room, m !! room = Some k) → r !! k = None)
                   ∧ (∀ v, r !! k = Some v → init !! k = Some v))).
  - split; [|done]. intros [room Hroom]. by rewrite lookup_empty in Hroom.
  - intros room h m r Hfresh [IHa IHb]. split.
    + intros [room' Hroom'].
      destruct (decide (h = k)) as [->|Hne]; [apply lookup_delete_eq|].
      rewrite lookup_delete_ne by done. apply IHa.
      exists room'. apply lookup_insert_Some in Hroom' as [[_ ?]|[_ ?]]; [done|done].
    + intros v [_ Hv]%lookup_delete_Some. by apply IHb.
Qed.

(** On disconnect every typing timer of the connection is cancelled and
    none of them is announced: no timer is left pending, no room is left in
    the typing state, the handler emits no [user_stopped_typing], and a
    handle that is run afterwards emits nothing. *)
Theorem disconnect_cancels_typing (s : socket) (c : connection) (g : server) :
  timers_tracked c →
  let '(c', _, out) := disconnect s c g in
  timers c' = ∅
  ∧ typingTimeouts c' = ∅
  ∧ events_named "user_stopped_typing" out = []
  ∧ ∀ h, fire_timer h s c' = (c', []).
Proof.
  intros Htr. unfold disconnect.
  assert (Hnone : timers (clear_typing c) = ∅).
  { apply map_eq. intros k. rewrite lookup_empty. unfold clear_typing. simpl.
    destruct (fold_delete_lookup (typingTimeouts c) (timers c) k) as [Ha Hb].
    destruct (map_fold _ (timers c) (typingTimeouts c) !! k) as [v|] eqn:Hk; [|done].
    pose proof (Hb v eq_refl) as Hinit. destruct v as [due [r p]].
    apply Htr in Hinit. apply Ha. by exists r. }
  split_and!; [done|done| |].
  - unfold events_named. rewrite filter_app.
    change (filter (λ e, em_event e = "user_stopped_typing") ?l)
      with (events_named "user_stopped_typing" l).
    by rewrite !events_named_notify_other.
  - intros h. unfold fire_timer. by rewrite Hnone, lookup_empty.
Qed.

Lemma disconnect_cancels_typing_witness :
  let c := (typing_run alice [TypingStart 0 typing_r1;
                              TypingStart 10 {| td_roomId := "r2"; td_projectId := "p1" |}]
              newConnection).1 in
  size (timers c) = 2
  ∧ let '(c', _, out) := disconnect alice c demo_server in
    timers c' = ∅
    ∧ typingTimeouts c' = ∅
    ∧ events_named "user_stopped_typing" out = []
    ∧ ∀ h, fire_timer h alice c' = (c', []).
Proof.
  split; [reflexivity|].
  apply (disconnect_cancels_typing alice).
  apply typing_run_inv; apply newConnection_typing_inv.
Defined.

(** ** Room names and the ids inside them *)

Lemma replace_first_unfold (p s : string) :
  replace_first p s
  = if String.prefix p s
    then String.substring (String.length p) (String.length s - String.length p) s
    else match s with
         | EmptyString => EmptyString
         | String c s' => String c (replace_first p s')
         end.
Proof. by destruct s. Qed.

Lemma prefix_append (p r : string) : String.prefix p (p +:+ r) = true.
Proof.
  induction p as [|a p IH]; simpl; [by destruct r|].
  destruct (Ascii.ascii_dec a a); [exact IH|done].
Qed.

Lemma substring_all (r : string) : String.substring 0 (String.length r) r = r.
Proof. induction r as [|a r IH]; simpl; [done|by rewrite IH]. Qed.

Lemma substring_append (p r : string) (k : nat) :
  String.substring (String.length p) k (p +:+ r) = String.substring 0 k r.
Proof. induction p as [|a p IH]; simpl; [done|exact IH]. Qed.

Lemma length_append (p r : string) :
  String.length (p +:+ r) = String.length p + String.length r.
Proof. induction p as [|a p IH]; simpl; [done|by rewrite IH]. Qed.

Lemma replace_first_append (p id : string) : replace_first p (p +:+ id) = id.
Proof.
  rewrite replace_first_unfold, prefix_append, substring_append, length_append.
  replace (String.length p + String.length id - String.length p)
    with (String.length id) by lia.
  apply substring_all.
Qed.

(** The id put into a room name with a prefix is the id taken out of it
    again: [(p + id).startsWith(p)], and [(p + id).replace(p, '')] is [id]. *)
Theorem room_name_round_trip (p id : string) :
  startsWith p (p +:+ id) = true ∧ replace_first p (p +:+ id) = id.
Proof. split; [apply prefix_append|apply replace_first_append]. Qed.

(** A connection that joined a project's rooms and then disconnects is
    announced offline to that project's room, sender excluded, with the very
    project id it joined under. *)
Theorem disconnect_after_join (s : socket) (projectId : string) (g : server) (db : store)
    (member : project_member) (c : connection) :
  single db (filter (λ pm, pm_project_id pm = projectId ∧ pm_user_id pm = sock_userId s)
               (project_members db)) = Data member →
  let '(s1, g1, _) := join_project_rooms s projectId g db in
  Emit (ToRoomExceptSender ("project_" +:+ projectId)) "user_offline"
    (PUserOffline (sock_userId s) projectId)
  ∈ (disconnect s1 c g1).2.
Proof.
  intros Hmember.
  pose proof (join_project_rooms_member s projectId g db member Hmember)
    as (rooms & _ & Hrooms).
  unfold join_project_rooms, rooms_of_project in *.
  rewrite Hmember, (single_Data_healthy _ _ _ Hmember) in *.
  unfold join_all in *. cbn [fst snd] in *.
  unfold disconnect. cbn [snd sock_id sock_userId].
  apply elem_of_app. right. rewrite notify_rooms_filter.
  apply list_elem_of_fmap. exists ("project_" +:+ projectId). split.
  - by rewrite replace_first_append.
  - apply list_elem_of_filter. split; [apply prefix_append|].
    unfold update_socket, with_manager in *. cbn [connectionManager] in *.
    rewrite Hrooms. apply JsSet_elem_of_foldl_add. right. left.
Qed.

Lemma disconnect_after_join_witness :
  let '(s1, g1, _) := join_project_rooms (demo_socket "s1" "alice" []) "p1"
                        demo_server demo_store in
  Emit (ToRoomExceptSender "project_p1") "user_offline" (PUserOffline "alice" "p1")
  ∈ (disconnect s1 newConnection g1).2.
Proof.
  apply (disconnect_after_join (demo_socket "s1" "alice" []) "p1" demo_server demo_store
           {| pm_id := "m1"; pm_project_id := "p1"; pm_user_id := "alice" |}
           newConnection eq_refl).
Defined.

(** ** Video calls *)

Lemma relay_to_target_filter (ev : string) (body : signal_payload) (data : relay_data)
    (g : server) :
  relay_to_target ev body data g
  = (λ cs, Signal (ToSocket (sock_id cs)) ev body)
      <$> filter (λ cs, sock_userId cs = rd_targetUserId data
                        ∧ "video_" +:+ rd_roomId data ∈ sock_rooms cs)
            (sockets g).
Proof.
  unfold relay_to_target. induction (sockets g) as [|cs l IH]; [done|]. simpl.
  destruct (is_offer_target _ _ cs) eqn:Hcs.
  - rewrite filter_cons_True by (by apply is_offer_target_spec). csimpl. by rewrite IH.
  - rewrite filter_cons_False; [by rewrite IH|].
    intros Htarget%is_offer_target_spec. congruence.
Qed.

(** [video_answer] and [video_ice_candidate] reach every live connection
    of the target user that is in the call room, once each and with the
    body unchanged, and nobody else: no connection of another user, none
    outside the room, not the room as a whole, not the caller. *)
Theorem video_relay_routes (s : socket) (data : relay_data) (g : server) :
  let peers := filter (λ cs, sock_userId cs = rd_targetUserId data
                             ∧ "video_" +:+ rd_roomId data ∈ sock_rooms cs)
                 (sockets g) in
  video_answer s data g
  = (λ cs, Signal (ToSocket (sock_id cs)) "video_answer"
             (PVideoAnswer (sock_userId s) (username (sock_user s))
                (rd_body data) (rd_roomId data))) <$> peers
  ∧ video_ice_candidate s data g
    = (λ cs, Signal (ToSocket (sock_id cs)) "video_ice_candidate"
               (PVideoIceCandidate (sock_userId s) (rd_body data) (rd_roomId data)))
        <$> peers.
Proof. split; apply relay_to_target_filter. Qed.

Lemma socket_by_id_Some (sid : string) (table : list socket) (cs : socket) :
  socket_by_id sid table = Some cs → sock_id cs = sid.
Proof.
  induction table as [|cs' table IH]; [done|]. simpl.
  case_bool_decide as Hid; [|exact IH]. by intros [= <-].
Qed.

Lemma socket_by_id_update_socket (sid : string) (s1 : socket) (g : server) :
  sid ≠ sock_id s1 →
  socket_by_id sid (sockets (update_socket s1 g)) = socket_by_id sid (sockets g).
Proof.
  intros Hne. unfold update_socket. simpl.
  induction (sockets g) as [|cs table IH]; [done|]. csimpl.
  destruct (decide (sock_id cs = sock_id s1)) as [Hid|Hid].
  - rewrite (bool_decide_eq_true_2 _ Hid).
    rewrite !bool_decide_eq_false_2 by congruence. exact IH.
  - rewrite (bool_decide_eq_false_2 _ Hid).
    case_bool_decide; [done|exact IH].
Qed.

Lemma others_in_room (members : JsSet.t) (s1 : socket) (g : server) :
  filter (λ cs, sock_id cs ≠ sock_id s1)
    (socketsInRoom (JsSet.add (sock_id s1) members) (update_socket s1 g))
  = socketsInRoom (filter (λ sid, sid ≠ sock_id s1) members) g.
Proof.
  unfold socketsInRoom.
  set (t1 := sockets (update_socket s1 g)).
  assert (Hother : ∀ m, m ≠ sock_id s1 → socket_by_id m t1 = socket_by_id m (sockets g))
    by (intros; by apply socket_by_id_update_socket).
  clearbody t1.
  assert (Hgen : ∀ ms : list string,
    filter (λ cs, sock_id cs ≠ sock_id s1) (omap (λ sid, socket_by_id sid t1) ms)
    = omap (λ sid, socket_by_id sid (sockets g))
        (filter (λ sid, sid ≠ sock_id s1) ms)).
  { induction ms as [|m ms IH]; [done|]. csimpl.
    destruct (decide (m = sock_id s1)) as [->|Hm].
    - rewrite (filter_cons_False (λ sid, sid ≠ sock_id s1)) by (intros Hne; by apply Hne).
      destruct (socket_by_id (sock_id s1) t1) as [cs|] eqn:Hcs; [|exact IH].
      apply socket_by_id_Some in Hcs.
      rewrite filter_cons_False by (intros Hne; by apply Hne). exact IH.
    - rewrite (filter_cons_True (λ sid, sid ≠ sock_id s1)) by done. csimpl.
      rewrite Hother by done.
      destruct (socket_by_id m (sockets g)) as [cs|] eqn:Hcs; [|exact IH].
      apply socket_by_id_Some in Hcs.
      rewrite filter_cons_True by congruence. by rewrite IH. }
  rewrite Hgen. f_equal. unfold JsSet.add. destruct (JsSet.has _ _); [done|].
  rewrite filter_app, filter_cons_False by (intros Hne; by apply Hne).
  by rewrite filter_nil, app_nil_r.
Qed.

(** [video_call_join] puts the socket in the call room, announces it to the
    room with the sender excluded, and tells the joiner who is already
    there: one entry for each other member of the room that is a live
    socket, in the order the members joined the room, and never an entry for
    the joining connection itself. *)
Theorem video_call_join_participants (members : JsSet.t) (s : socket)
    (data : video_join_data) (g : server) :
  let room := "video_" +:+ vj_roomId data in
  let '(s1, g1, out) := video_call_join members s data g in
  room ∈ sock_rooms s1
  ∧ signals_named "video_current_participants" out
    = [Signal ToSender "video_current_participants"
         (PVideoCurrentParticipants
            (participant_entry
               <$> socketsInRoom (filter (λ sid, sid ≠ sock_id s) members) g)
            (vj_roomId data))]
  ∧ signals_named "video_participant_joined" out
    = [Signal (ToRoomExceptSender room) "video_participant_joined"
         (PVideoParticipantJoined (vj_userId data) (vj_username data)
            (vj_avatarUrl data) (vj_roomId data))].
Proof.
  unfold video_call_join. cbv zeta. split_and!.
  - simpl. apply JsSet_elem_of_add. by left.
  - unfold signals_named. rewrite filter_cons_False by done.
    rewrite filter_cons_True by done. rewrite filter_nil.
    do 4 f_equal.
    exact (others_in_room members (socket_join ("video_" +:+ vj_roomId data) s) g).
  - unfold signals_named. rewrite filter_cons_True by done.
    by rewrite filter_cons_False.
Qed.

Lemma video_call_join_participants_witness :
  let '(_, _, out) := video_call_join ["s9"; "s3"; "s4"] alice_s2 join_v1 call_server in
  signals_named "video_current_participants" out
  = [Signal ToSender "video_current_participants"
       (PVideoCurrentParticipants
          [("carol", "carol", ""); ("bob", "bob", ""); ("bob", "bob", "")] "v1")].
Proof.
  pose proof (video_call_join_participants ["s9"; "s3"; "s4"] alice_s2 join_v1 call_server)
    as Hjoin.
  cbv zeta in Hjoin.
  destruct (video_call_join ["s9"; "s3"; "s4"] alice_s2 join_v1 call_server)
    as [[s1 g1] out].
  destruct Hjoin as (_ & Hlist & _). etrans; [exact Hlist|reflexivity].
Defined.

(** After [video_call_join], a [video_offer] from anyone that names the
    joiner's user id and the same room is delivered to the joiner's
    connection, provided that connection is in the live table. *)
Theorem video_join_then_offer (members : JsSet.t) (s caller : socket)
    (data : video_join_data) (od : offer_data) (g : server) :
  (∃ s0, s0 ∈ sockets g ∧ sock_id s0 = sock_id s) →
  od_roomId od = vj_roomId data →
  od_targetUserId od = sock_userId s →
  let '(_, g1, _) := video_call_join members s data g in
  Emit (ToSocket (sock_id s)) "video_offer"
    (PVideoOffer (sock_userId caller) (username (sock_user caller))
       (avatar_url (sock_user caller)) (od_offer od) (od_roomId od))
  ∈ video_offer caller od g1.
Proof.
  intros (s0 & Hin & Hid) Hroom Htarget. unfold video_call_join. cbv zeta.
  rewrite video_offer_filter. apply list_elem_of_fmap.
  exists (socket_join ("video_" +:+ vj_roomId data) s). split; [done|].
  apply list_elem_of_filter. split.
  - apply is_offer_target_spec. split; [done|].
    rewrite Hroom. simpl. apply JsSet_elem_of_add. by left.
  - by apply (elem_of_update_socket _ s0).
Qed.

(** After [video_call_leave], no [video_offer] for that room is delivered
    to the connection that left, whoever sends it and whomever it names. *)
Theorem video_leave_then_offer (s caller : socket) (data : room_data)
    (od : offer_data) (g : server) :
  od_roomId od = rm_roomId data →
  let '(_, g1, _) := video_call_leave s data g in
  Forall (λ e, em_target e ≠ ToSocket (sock_id s)) (video_offer caller od g1).
Proof.
  intros Hroom. unfold video_call_leave. cbv zeta.
  rewrite video_offer_filter. apply Forall_fmap, Forall_forall.
  intros cs [Htarget Hin]%list_elem_of_filter. simpl.
  apply is_offer_target_spec in Htarget as [_ Hroom'].
  unfold update_socket in Hin. simpl in Hin.
  apply list_elem_of_fmap in Hin as (s' & -> & Hs').
  case_bool_decide as Hid.
  - exfalso. simpl in Hroom'. unfold JsSet.delete in Hroom'.
    apply list_elem_of_filter in Hroom' as [Hne _]. rewrite Hroom in Hne. done.
  - intros [= Heq]. done.
Qed.

Lemma video_join_then_offer_witness :
  let '(_, g1, out) := video_call_join ["s3"] alice_s2 join_v1 demo_server in
  signals_named "video_current_participants" out
  = [Signal ToSender "video_current_participants"
       (PVideoCurrentParticipants [("bob", "bob", "")] "v1")]
  ∧ Emit (ToSocket "s2") "video_offer"
      (PVideoOffer "bob" "bob" "" "v=0 o=- 46117317 2 IN IP4 127.0.0.1" "v1")
    ∈ video_offer bob_s3 (offer_to "alice") g1.
Proof.
  split; [reflexivity|].
  apply (video_join_then_offer ["s3"] alice_s2 bob_s3 join_v1 (offer_to "alice")
           demo_server); [|reflexivity|reflexivity].
  exists alice_s2. split; [right; left|reflexivity].
Defined.

Lemma video_leave_then_offer_witness :
  video_offer alice (offer_to "bob") demo_server
  = [Emit (ToSocket "s3") "video_offer"
       (PVideoOffer "alice" "alice" "" "v=0 o=- 46117317 2 IN IP4 127.0.0.1" "v1")]
  ∧ let '(_, g1, _) := video_call_leave bob_s3 leave_v1 demo_server in
    Forall (λ e, em_target e ≠ ToSocket "s3") (video_offer alice (offer_to "bob") g1).
Proof.
  split; [reflexivity|].
  apply (video_leave_then_offer bob_s3 alice leave_v1 (offer_to "bob") demo_server).
  reflexivity.
Defined.

(** ** Friends' presence *)

Lemma friendIds_accepted_between (u f : string) (db : store) :
  healthy db = true →
  f ∈ friendIds u db ↔ ∃ row, row ∈ accepted_between u f db.
Proof.
  intros Hup. unfold friendIds, accepted_of, accepted_between. rewrite Hup.
  rewrite list_elem_of_fmap. split.
  - intros (row & -> & [[Hends Hacc] Hin]%list_elem_of_filter).
    exists row. apply list_elem_of_filter. split; [|done].
    case_bool_decide as Hreq; [by left|].
    right. destruct Hends as [?|?]; done.
  - intros (row & [Hends Hin]%list_elem_of_filter).
    exists row. split.
    + case_bool_decide as Hreq.
      * destruct Hends as [(_ & ? & _)|(? & ? & _)]; congruence.
      * destruct Hends as [(? & _ & _)|(? & _ & _)]; congruence.
    + apply list_elem_of_filter. split; [|done].
      destruct Hends as [(? & _ & ?)|(_ & ? & ?)]; split; auto.
Qed.

(** [join_friends_chat] puts the socket in the user's own mailbox room and
    announces [friend_online] to the mailbox rooms of exactly the users with
    whom an accepted friendship row exists, in either direction: the same
    rows [send_friend_message] looks for.  Every friend reported online is
    one of them and has a live connection.  When the friendship query fails,
    nobody is notified and the reply lists nobody. *)
Theorem join_friends_chat_notifies_friends (s : socket) (g : server) (db : store) :
  let '(s1, g1, out) := join_friends_chat s g db in
  let u := sock_userId s in
  ("user_" +:+ u) ∈ sock_rooms s1
  ∧ (healthy db = true →
     ∀ f, Signal (ToRoom ("user_" +:+ f)) "friend_online"
            (PFriendOnline u (username (sock_user s))) ∈ out
          ↔ accepted_between u f db ≠ [])
  ∧ (∀ online, Signal ToSender "online_friends_list" (POnlineFriendsList online) ∈ out →
       ∀ f, f ∈ online →
            f ∈ friendIds u db ∧ ∃ cs, cs ∈ sockets g1 ∧ sock_userId cs = f)
  ∧ (healthy db = false →
     out = [Signal ToSender "online_friends_list" (POnlineFriendsList [])]).
Proof.
  unfold join_friends_chat. cbv zeta. split_and!.
  - simpl. apply JsSet_elem_of_add. by left.
  - intros Hup f. rewrite elem_of_app, list_elem_of_fmap.
    assert (Hne : accepted_between (sock_userId s) f db ≠ []
                  ↔ ∃ row, row ∈ accepted_between (sock_userId s) f db).
    { destruct (accepted_between (sock_userId s) f db) as [|row l].
      - split; [done|]. by intros [? ?%elem_of_nil].
      - split; [|done]. intros _. exists row. left. }
    rewrite Hne, <- friendIds_accepted_between by done. split.
    + intros [(f' & [= Heq] & Hin)|Hlast].
      * change (f = f') in Heq. by rewrite Heq.
      * apply list_elem_of_singleton in Hlast. done.
    + intros Hin. left. by exists f.
  - intros online [Hin|Hlast]%elem_of_app f Hf.
    + apply list_elem_of_fmap in Hin as (? & [=] & _).
    + apply list_elem_of_singleton in Hlast as [= ->].
      apply list_elem_of_filter in Hf as [Hex Hf]. split; [done|].
      apply Exists_exists in Hex as (cs & Hcs & ?). by exists cs.
  - intros Hdown. unfold friendIds, accepted_of. by rewrite Hdown.
Qed.

Lemma join_friends_chat_notifies_friends_witness :
  let '(_, _, out) := join_friends_chat alice demo_server demo_store in
  Signal (ToRoom "user_bob") "friend_online" (PFriendOnline "alice" "alice") ∈ out
  ∧ ¬ (Signal (ToRoom "user_carol") "friend_online" (PFriendOnline "alice" "alice") ∈ out)
  ∧ (join_friends_chat alice demo_server down_store).2
    = [Signal ToSender "online_friends_list" (POnlineFriendsList [])].
Proof.
  pose proof (join_friends_chat_notifies_friends alice demo_server demo_store) as Hjoin.
  pose proof (join_friends_chat_notifies_friends alice demo_server down_store) as Hdown.
  cbv zeta in *.
  destruct (join_friends_chat alice demo_server demo_store) as [[s1 g1] out].
  destruct (join_friends_chat alice demo_server down_store) as [[s2 g2] out2].
  destruct Hjoin as (_ & Hiff & _). destruct Hdown as (_ & _ & _ & Hnone).
  split; [|split].
  - by apply (Hiff eq_refl "bob").
  - intros Hin. by apply (Hiff eq_refl "carol") in Hin.
  - by apply Hnone.
Defined.
